(** * A line-oriented transpiler to C++: tokenizer, argument splitter,
      expression reader and statement emitter of [Class 2/main.cpp].

    The development embeds the functions of [main.cpp] as Rocq functions
    and states the properties of the specification over them.

    Conventions of the embedding.
    - A C++ [std::string] is a [string] (a list of 8-bit characters); a
      [vector<string>] of tokens is a [list token].
    - The source walks a vector with a cursor [i] that only moves forward
      and never reads below it.  A pair (vector, cursor) is represented by
      the unread suffix [tok[i..]]: [tok[i]] is the head of the suffix,
      [tok[i+1]] its second element, [++i] drops the head, and
      [i + k < tok.size()] reads [k < length suffix].  A function that
      takes [size_t& i] returns the suffix left at the advanced cursor.
    - [isspace] and [isalnum] are those of the default "C" locale (the
      program never calls [setlocale]).
    - An [ostringstream] is the string written to it so far. *)

From Stdlib Require Import List String Ascii Bool Arith ZArith Lia.
Import ListNotations.

Local Open Scope string_scope.
Local Open Scope list_scope.

(** ** Characters *)

Definition token := string.

(** The double-quote character (code 34). *)
Definition dquote : ascii := "034"%char.

(** The line feed (code 10). *)
Definition newline : ascii := "010"%char.

(** [isspace] in the "C" locale: space, and the controls 9 to 13
    (tab, line feed, vertical tab, form feed, carriage return). *)
Definition isspace (c : ascii) : bool :=
  let n := nat_of_ascii c in
  ((n =? 32) || ((9 <=? n) && (n <=? 13)))%nat.

(** [isalnum] in the "C" locale: the digits and the unaccented letters. *)
Definition isalnum (c : ascii) : bool :=
  let n := nat_of_ascii c in
  (((48 <=? n) && (n <=? 57)) || ((65 <=? n) && (n <=? 90))
   || ((97 <=? n) && (n <=? 122)))%nat.

(** The test [isalnum(ch) || ch == '_'] of lines 43, 45, 101, 146, 147. *)
Definition isWordChar (c : ascii) : bool := isalnum c || (c =? "_")%char.

(** The test of line 36: the characters that are a token of their own. *)
Definition isSingleCharToken (c : ascii) : bool :=
  (c =? "(")%char || (c =? ")")%char || (c =? "+")%char || (c =? "-")%char
  || (c =? "*")%char || (c =? "/")%char || (c =? ",")%char.

(** One-character string, [string(1, ch)]. *)
Definition string1 (c : ascii) : string := String c EmptyString.

(** ** Tokenizer (lines 12-56) *)

(** The inner loop of lines 26-29, started just after an opening quote:
    returns the text consumed (the closing quote included when there is
    one) and the unread rest of the line. *)
Fixpoint scanQuoted (s : string) : string * string :=
  match s with
  | EmptyString => (EmptyString, EmptyString)
  | String c r =>
      if (c =? dquote)%char then (string1 c, r)
      else let (lit, rest) := scanQuoted r in (String c lit, rest)
  end.

(** The inner loop of lines 44-45, started just after the first character
    of an alphanumeric run. *)
Fixpoint scanWord (s : string) : string * string :=
  match s with
  | EmptyString => (EmptyString, EmptyString)
  | String c r =>
      if isWordChar c
      then let (w, rest) := scanWord r in (String c w, rest)
      else (EmptyString, s)
  end.

(** The outer loop of [tokenizeLine]; [s] is the unread part of the line.
    Every iteration consumes at least one character, so [length s]
    iterations are enough ([tokenizeFrom_fuel] below). *)
Fixpoint tokenizeFrom (fuel : nat) (s : string) : list token :=
  match fuel, s with
  | 0, _ => []
  | _, EmptyString => []
  | S fuel', String ch rest =>
      if isspace ch then tokenizeFrom fuel' rest
      else if (ch =? dquote)%char then
        let (lit, rest') := scanQuoted rest in
        String ch lit :: tokenizeFrom fuel' rest'
      else if isSingleCharToken ch then
        string1 ch :: tokenizeFrom fuel' rest
      else if isWordChar ch then
        let (w, rest') := scanWord rest in
        String ch w :: tokenizeFrom fuel' rest'
      else string1 ch :: tokenizeFrom fuel' rest
  end.

Definition tokenizeLine (line : string) : list token :=
  tokenizeFrom (String.length line) line.

(** The line-boundary marker pushed after every line (line 70). *)
Definition NL : token := string1 newline.

(** The lines that successive [getline] calls return on a file of the
    given content: the text between line feeds; a last line without a line
    feed is returned when it is not empty. *)
Fixpoint getlines (content : string) : list string :=
  match content with
  | EmptyString => []
  | String c r =>
      if (c =? newline)%char then EmptyString :: getlines r
      else match getlines r with
           | [] => [string1 c]
           | l :: ls => String c l :: ls
           end
  end.

(** The loop of lines 66-71 over the lines read. *)
Fixpoint tokenizeLines (lines : list string) : list token :=
  match lines with
  | [] => []
  | line :: more => tokenizeLine line ++ NL :: tokenizeLines more
  end.

(** [tokenizeFile]: the file is [None] when it cannot be opened and
    [Some content] otherwise.  Returns the tokens and what was written to
    [cerr]. *)
Definition tokenizeFile (filename : string) (file : option string)
  : list token * list string :=
  match file with
  | None => ([], ["Error: cannot open " ++ filename ++ string1 newline]%string)
  | Some content => (tokenizeLines (getlines content), [])
  end.

(** ** Helpers (lines 77-84) *)

Definition isNewlineToken (t : token) : bool := (t =? NL)%string.

Definition isTypeKeyword (t : token) : bool :=
  (t =? "integer")%string || (t =? "float")%string || (t =? "string")%string.

Definition cppType (t : token) : string :=
  if (t =? "integer")%string then "int"
  else if (t =? "float")%string then "float"
  else if (t =? "string")%string then "std::string"
  else t.

(** ** Expression Reader (lines 87-109) *)

(** [s.front()] and [s.back()], read only on strings of size at least 2. *)
Definition front (s : string) : ascii :=
  match s with
  | EmptyString => zero
  | String c _ => c
  end.

Fixpoint back (s : string) : ascii :=
  match s with
  | EmptyString => zero
  | String c EmptyString => c
  | String _ r => back r
  end.

(** The lambda [wordLike] of lines 99-102. *)
Definition wordLike (s : string) : bool :=
  if (2 <=? String.length s)%nat && (front s =? dquote)%char
     && (back s =? dquote)%char
  then true
  else match s with
       | EmptyString => false
       | String c _ => isWordChar c
       end.

(** Lines 97-104: whether a space follows [t] when [next] is the token
    after it (the test [!isNewlineToken(tok[i+1])] of line 95 included). *)
Definition exprNeedSpace (t next : token) : bool :=
  negb (isNewlineToken next) && (wordLike t && wordLike next).

(** The loop of [readExprUntilEOL]; [oss] is the text written so far. *)
Fixpoint readExprLoop (tok : list token) (oss : string)
  : string * list token :=
  match tok with
  | [] => (oss, [])
  | t :: rest =>
      if isNewlineToken t then (oss, tok)
      else if (t =? "te")%string then readExprLoop rest oss
      else
        let needSpace :=
          match rest with
          | next :: _ => exprNeedSpace t next
          | [] => false
          end in
        readExprLoop rest
          ((oss ++ t) ++ (if needSpace then " " else EmptyString))%string
  end.

Definition readExprUntilEOL (tok : list token) : string * list token :=
  readExprLoop tok EmptyString.

(** ** Argument Splitter (lines 112-155) *)

Fixpoint trimLeft (s : string) : string :=
  match s with
  | EmptyString => EmptyString
  | String c r => if isspace c then trimLeft r else s
  end.

(** Erases the trailing white space (line 121). *)
Fixpoint trimRight (s : string) : string :=
  match s with
  | EmptyString => EmptyString
  | String c r =>
      match trimRight r with
      | EmptyString => if isspace c then EmptyString else string1 c
      | r' => String c r'
      end
  end.

Definition trim (s : string) : string := trimRight (trimLeft s).

(** The lambda [flushArg] of lines 117-124, on the argument list; the
    caller resets the buffer [cur]. *)
Definition flushArg (cur : string) (args : list string) : list string :=
  match trim cur with
  | EmptyString => args
  | s => args ++ [s]
  end.

(** The word test of lines 146-147. *)
Definition argWordLike (t : token) : bool :=
  match t with
  | EmptyString => false
  | String c _ => isWordChar c || (c =? dquote)%char
  end.

(** Lines 146-148: whether a space follows [t] when [nxt] is the token
    after it. *)
Definition argNeedSpace (t nxt : token) : bool :=
  argWordLike t && argWordLike nxt.

(** The loop of [splitArgs].  [depth] is an [int] in the source; it is
    never negative and never exceeds the number of tokens read, so it is a
    natural number here. *)
Fixpoint splitArgsLoop (tok : list token) (depth : nat) (cur : string)
  (args : list string) : list string * list token :=
  match tok with
  | [] => (args, [])
  | t :: rest =>
      if (t =? "(")%string then
        splitArgsLoop rest (S depth) (cur ++ t)%string args
      else if (t =? ")")%string then
        match depth with
        | 0 => (flushArg cur args, rest)
        | S d => splitArgsLoop rest d (cur ++ t)%string args
        end
      else if (t =? ",")%string && (depth =? 0)%nat then
        splitArgsLoop rest depth EmptyString (flushArg cur args)
      else if negb (isNewlineToken t) then
        let space :=
          match rest with
          | nxt :: _ => argNeedSpace t nxt
          | [] => false
          end in
        splitArgsLoop rest depth
          ((cur ++ t) ++ (if space then " " else EmptyString))%string args
      else splitArgsLoop rest depth cur args
  end.

Definition splitArgs (tok : list token) : list string * list token :=
  splitArgsLoop tok 0 EmptyString [].

(** ** Parser / Transpiler (lines 158-229) *)

Record State := mkState {
  body : list string;
  usesString : bool;
  usesFloat : bool
}.

Definition initState : State := mkState [] false false.

(** [while (i < tok.size() && isNewlineToken(tok[i])) ++i;] *)
Fixpoint skipNewlines (tok : list token) : list token :=
  match tok with
  | [] => []
  | t :: rest => if isNewlineToken t then skipNewlines rest else tok
  end.

(** [while (i < tok.size() && !isNewlineToken(tok[i])) ++i;] *)
Fixpoint skipToEOL (tok : list token) : list token :=
  match tok with
  | [] => []
  | t :: rest => if isNewlineToken t then tok else skipToEOL rest
  end.

(** The text a loop writes to a stream, one piece per iteration. *)
Fixpoint writeAll (pieces : list string) : string :=
  match pieces with
  | [] => EmptyString
  | p :: more => (p ++ writeAll more)%string
  end.

(** The line built at lines 184-189. *)
Definition printLine (args : list string) : string :=
  ("std::cout" ++ writeAll (map (fun a => " << " ++ a) args)
   ++ " << std::endl;")%string.

(** The line built at lines 208-209. *)
Definition declLine (tkw id expr : string) : string :=
  (cppType tkw ++ " " ++ id ++ " = " ++ expr ++ ";")%string.

Definition pushLine (line : string) (st : State) : State :=
  mkState (body st ++ [line]) (usesString st) (usesFloat st).

(** Lines 174-215: the dispatch on the statement at the cursor. *)
Definition statement (tok : list token) (st : State) : list token * State :=
  match tok with
  | [] => ([], st)
  | t :: rest =>
      if (t =? "dekhao")%string then
        match rest with
        | p :: rest' =>
            if (p =? "(")%string then
              let (args, r) := splitArgs rest' in
              (skipToEOL r, pushLine (printLine args) st)
            else (skipToEOL rest, st)
        | [] => ([], st)
        end
      else if (3 <? List.length tok)%nat && isTypeKeyword t then
        let tkw := t in
        let (id, r1) :=
          match rest with
          | x :: r => (x, r)
          | [] => (EmptyString, [])
          end in
        let maybeTe :=
          match r1 with
          | m :: _ => m
          | [] => EmptyString
          end in
        let r2 := if (maybeTe =? "te")%string then tl r1 else r1 in
        let (expr, r3) := readExprUntilEOL r2 in
        (r3,
         mkState (body st ++ [declLine tkw id expr])
           (if (tkw =? "string")%string then true else usesString st)
           (if (tkw =? "float")%string then true else usesFloat st))
      else (skipToEOL tok, st)
  end.

(** The loop of lines 168-219.  Every iteration that reaches the dispatch
    consumes at least one token, so [length tok] iterations are enough
    ([transpileLoop_fuel] below). *)
Fixpoint transpileLoop (fuel : nat) (tok : list token) (st : State) : State :=
  match fuel with
  | 0 => st
  | S fuel' =>
      match skipNewlines tok with
      | [] => st
      | tok1 =>
          let (tok2, st') := statement tok1 st in
          transpileLoop fuel' (skipNewlines tok2) st'
      end
  end.

(** The loop started at a cursor with [tok] unread and the locals of
    [transpile] as in [st]: the state when it ends. *)
Definition run (tok : list token) (st : State) : State :=
  transpileLoop (List.length tok) tok st.

(** The state when the loop of [transpile] ends. *)
Definition transpileState (tok : list token) : State := run tok initState.

Definition nl : string := string1 newline.

(** Lines 222-228: the program text. *)
Definition assemble (st : State) : string :=
  (("#include <iostream>" ++ nl)
   ++ (if usesString st then "#include <string>" ++ nl else EmptyString)
   ++ ("using namespace std;" ++ nl ++ nl)
   ++ ("int main() {" ++ nl)
   ++ writeAll (map (fun s => "    " ++ s ++ nl) (body st))
   ++ ("    return 0;" ++ nl ++ "}" ++ nl))%string.

Definition transpile (tok : list token) : string :=
  assemble (transpileState tok).

(** ** The program (lines 231-267) *)

(** What a run leaves behind: the exit status, the text written to [cerr]
    and to [cout], and the content of [generated.cpp] when it was
    written. *)
Record Outcome := mkOutcome {
  exitStatus : Z;
  cerr : list string;
  cout : string;
  generatedFile : option string
}.

(** The token dump of lines 242-247. *)
Definition dumpToken (t : token) : string :=
  if (t =? NL)%string then nl else ("[" ++ t ++ "] ")%string.

Definition tokenDump (tokens : list token) : string :=
  (("Tokens:" ++ nl) ++ writeAll (map dumpToken tokens) ++ (nl ++ nl))%string.

(** [main].  [file] is the content of [input.txt] ([None] when it cannot
    be opened); [writable] tells whether [generated.cpp] can be opened for
    writing. *)
Definition main (file : option string) (writable : bool) : Outcome :=
  let (tokens, err) := tokenizeFile "input.txt" file in
  match tokens with
  | [] =>
      mkOutcome 1 (err ++ [("No tokens (or failed to read input)." ++ nl)%string])
        EmptyString None
  | _ :: _ =>
      let cppCode := transpile tokens in
      let shown :=
        (tokenDump tokens ++ ("===== Generated C++ =====" ++ nl)
         ++ (cppCode ++ nl))%string in
      if writable then
        mkOutcome 0 err (shown ++ ("Written to generated.cpp" ++ nl))%string
          (Some cppCode)
      else
        mkOutcome 0
          (err ++ [("Warning: could not write generated.cpp" ++ nl)%string])
          shown None
  end.

(** * Definitions of the specification *)

(** ** Quoted literals *)

(** Whether the text contains a double quote, and how many. *)
Fixpoint hasQuote (s : string) : bool :=
  match s with
  | EmptyString => false
  | String c r => (c =? dquote)%char || hasQuote r
  end.

Fixpoint countQuotes (s : string) : nat :=
  match s with
  | EmptyString => 0
  | String c r => (if (c =? dquote)%char then 1 else 0) + countQuotes r
  end.

(** Every quote of the text is matched: the tokenizer pairs quotes from
    left to right, so this is an even number of them. *)
Definition quotesClosed (s : string) : bool := Nat.even (countQuotes s).

(** ** Word-like tokens and re-serialization *)

(** Glossary, word-like token: a token whose first character is
    alphanumeric, underscore, or a quote character. *)
Definition specWordLike (t : token) : bool :=
  match t with
  | EmptyString => false
  | String c _ => isalnum c || (c =? "_")%char || (c =? dquote)%char
  end.

(** A token that opens a string literal without closing it: it starts
    with a quote and is a lone quote or does not end with one. *)
Definition unterminatedLiteral (t : token) : bool :=
  (front t =? dquote)%char
  && negb ((2 <=? String.length t)%nat && (back t =? dquote)%char).

(** The separator the specification puts between two adjacent tokens. *)
Definition specSeparator (t : token) (rest : list token) : string :=
  match rest with
  | next :: _ =>
      if specWordLike t && specWordLike next then " " else EmptyString
  | [] => EmptyString
  end.

(** Re-serialization as the specification words it: the tokens in order,
    adjacent word-like tokens separated by exactly one space, all other
    adjacent tokens with nothing between them. *)
Fixpoint joinTokens (toks : list token) : string :=
  match toks with
  | [] => EmptyString
  | t :: rest => (t ++ specSeparator t rest ++ joinTokens rest)%string
  end.

(** The tokens of an initializer the amended declaration property is
    about: no line boundary, no further binding marker [te], no
    unterminated literal. *)
Definition exprToken (t : token) : bool :=
  negb (isNewlineToken t) && negb (t =? "te")%string
  && negb (unterminatedLiteral t).

(** ** Statement shapes *)

(** The test of lines 174 and 178: the print keyword followed by an
    opening parenthesis. *)
Definition isPrintCall (tok : list token) : bool :=
  match tok with
  | t :: p :: _ => (t =? "dekhao")%string && (p =? "(")%string
  | _ => false
  end.

(** The test of line 196, reached when the first token is not the print
    keyword: a type keyword with at least three more tokens in the token
    sequence. *)
Definition isDeclaration (tok : list token) : bool :=
  match tok with
  | t :: _ =>
      negb (t =? "dekhao")%string
      && ((3 <? List.length tok)%nat && isTypeKeyword t)
  | [] => false
  end.

(** No token of the list is a line-boundary marker. *)
Definition oneLine (toks : list token) : bool :=
  forallb (fun t => negb (isNewlineToken t)) toks.

(** ** Argument lists *)

(** The nesting depth after the tokens, started at [depth]; [None] when a
    closing parenthesis occurs at depth zero. *)
Fixpoint depthAfter (toks : list token) (depth : nat) : option nat :=
  match toks with
  | [] => Some depth
  | t :: rest =>
      if (t =? "(")%string then depthAfter rest (S depth)
      else if (t =? ")")%string then
        match depth with
        | 0 => None
        | S d => depthAfter rest d
        end
      else depthAfter rest depth
  end.

(** No closing parenthesis at depth zero occurs anywhere in the tokens. *)
Definition neverCloses (toks : list token) (depth : nat) : bool :=
  match depthAfter toks depth with
  | Some _ => true
  | None => false
  end.

(** The tokens split at the commas of depth zero, the commas left out:
    the top-level comma-separated arguments, in order. *)
Fixpoint topLevelGroups (toks : list token) (depth : nat)
  : list (list token) :=
  match toks with
  | [] => [[]]
  | t :: rest =>
      if (t =? ",")%string && (depth =? 0)%nat
      then [] :: topLevelGroups rest depth
      else
        let depth' :=
          if (t =? "(")%string then S depth
          else if (t =? ")")%string then pred depth
          else depth in
        match topLevelGroups rest depth' with
        | g :: gs => (t :: g) :: gs
        | [] => [[t]]
        end
  end.

Definition nonEmpty (s : string) : bool :=
  match s with
  | EmptyString => false
  | String _ _ => true
  end.

(** The argument strings of a call as the specification words them: each
    top-level argument re-serialized and trimmed, the empty ones
    dropped. *)
Definition specArgs (toks : list token) : list string :=
  filter nonEmpty (map (fun g => trim (joinTokens g)) (topLevelGroups toks 0)).

(** The tokens before the last comma of depth zero, when there is one. *)
Fixpoint beforeLastComma (toks : list token) (depth : nat)
  : option (list token) :=
  match toks with
  | [] => None
  | t :: rest =>
      let depth' :=
        if (t =? "(")%string then S depth
        else if (t =? ")")%string then pred depth
        else depth in
      match beforeLastComma rest depth' with
      | Some pre => Some (t :: pre)
      | None =>
          if (t =? ",")%string && (depth =? 0)%nat then Some [] else None
      end
  end.

(** ** The generated text *)

(** The diagnostic of line 237. *)
Definition noTokensMessage : string :=
  ("No tokens (or failed to read input)." ++ nl)%string.

(** The generated text has the string-type header line: it starts with
    the [iostream] header line followed by the line [#include <string>]. *)
Definition hasStringHeader (out : string) : bool :=
  String.prefix ("#include <iostream>" ++ nl ++ "#include <string>" ++ nl) out.

(** The string flag is set exactly when a declaration line of the string
    type keyword is in the body. *)
Definition stringFlagInv (st : State) : Prop :=
  usesString st = true <->
  exists id expr, In (declLine "string" id expr) (body st).

(** ** Shapes of tokens *)

(** The text is white space only. *)
Fixpoint allSpace (s : string) : bool :=
  match s with
  | EmptyString => true
  | String c r => isspace c && allSpace r
  end.

(** The text is made of alphanumeric characters and underscores. *)
Fixpoint allWordChars (s : string) : bool :=
  match s with
  | EmptyString => true
  | String c r => isWordChar c && allWordChars r
  end.

(** What may follow the opening quote of a literal token: no quote,
    except as the last character. *)
Fixpoint literalTail (s : string) : bool :=
  match s with
  | EmptyString => true
  | String c r =>
      if (c =? dquote)%char
      then match r with EmptyString => true | String _ _ => false end
      else literalTail r
  end.

(** The three kinds of token: a literal led by a quote, a run of
    alphanumeric characters and underscores, or one other character that
    is not white space. *)
Definition tokenShape (t : token) : bool :=
  match t with
  | EmptyString => false
  | String c r =>
      if (c =? dquote)%char then literalTail r
      else if isWordChar c then allWordChars r
      else negb (isspace c)
           && match r with EmptyString => true | String _ _ => false end
  end.

(** The line with the white space outside string literals removed;
    [inLiteral] tells whether the text starts inside a literal. *)
Fixpoint dropOuterSpace (inLiteral : bool) (s : string) : string :=
  match s with
  | EmptyString => EmptyString
  | String c r =>
      if inLiteral then String c (dropOuterSpace (negb (c =? dquote)%char) r)
      else if isspace c then dropOuterSpace false r
      else String c (dropOuterSpace (c =? dquote)%char r)
  end.

(** The number of line-boundary markers among the tokens. *)
Definition countNL (toks : list token) : nat :=
  List.length (filter isNewlineToken toks).

(** The token sequence is empty or ends with a line-boundary marker. *)
Fixpoint terminated (toks : list token) : bool :=
  match toks with
  | [] => true
  | t :: rest =>
      match rest with
      | [] => isNewlineToken t
      | _ :: _ => terminated rest
      end
  end.

(** The text neither starts nor ends with white space (the empty text
    included). *)
Definition trimmed (s : string) : bool :=
  negb (isspace (front s)) && negb (isspace (back s)).

(** The cursor is at the end of the tokens or at a line-boundary
    marker. *)
Definition atBoundary (toks : list token) : bool :=
  match toks with
  | [] => true
  | t :: _ => isNewlineToken t
  end.

(** A generated statement line: it starts as an output statement or as a
    declaration of one of the three target types, and ends with a
    semicolon. *)
Definition codeLine (l : string) : bool :=
  (String.prefix "std::cout" l || String.prefix "int " l
   || String.prefix "float " l || String.prefix "std::string " l)
  && (back l =? ";")%char.

(** The float flag is set exactly when a declaration line of the float
    type keyword is in the body. *)
Definition floatFlagInv (st : State) : Prop :=
  usesFloat st = true <->
  exists id expr, In (declLine "float" id expr) (body st).

(** ** One iteration of the tokenizer *)

(** The body of the loop of [tokenizeLine] (lines 16-53) at the unread
    text [s]: the token pushed, if any, and the text left unread; [None]
    when the loop condition of line 15 fails. *)
Definition tokenizeStep (s : string) : option (option token * string) :=
  match s with
  | EmptyString => None
  | String ch rest =>
      if isspace ch then Some (None, rest)
      else if (ch =? dquote)%char then
        let (lit, rest') := scanQuoted rest in
        Some (Some (String ch lit), rest')
      else if isSingleCharToken ch then Some (Some (string1 ch), rest)
      else if isWordChar ch then
        let (w, rest') := scanWord rest in
        Some (Some (String ch w), rest')
      else Some (Some (string1 ch), rest)
  end.

(** * Properties *)

(** ** Strings *)

Section StringFacts.

Lemma append_nil_r (s : string) : (s ++ EmptyString)%string = s.
Proof. induction s as [|c s IH]; simpl; [reflexivity | now rewrite IH]. Qed.

Lemma append_assoc (a b c : string) :
  ((a ++ b) ++ c)%string = (a ++ (b ++ c))%string.
Proof. induction a as [|x a IH]; simpl; [reflexivity | now rewrite IH]. Qed.

Lemma length_append (a b : string) :
  String.length (a ++ b) = String.length a + String.length b.
Proof. induction a as [|x a IH]; simpl; [reflexivity | now rewrite IH]. Qed.

End StringFacts.

(** ** Tokenizer *)

Section Tokenizer.

Lemma scanQuoted_length (s : string) :
  String.length (snd (scanQuoted s)) <= String.length s.
Proof.
  induction s as [|c r IH]; simpl; [lia|].
  destruct (c =? dquote)%char; simpl; [lia|].
  destruct (scanQuoted r); simpl in *; lia.
Qed.

Lemma scanWord_length (s : string) :
  String.length (snd (scanWord s)) <= String.length s.
Proof.
  induction s as [|c r IH]; simpl; [lia|].
  destruct (isWordChar c); simpl; [|lia].
  destruct (scanWord r); simpl in *; lia.
Qed.

(** The loop of [tokenizeLine] never runs out of iterations: any two
    budgets that cover the length of the text give the same tokens. *)
Lemma tokenizeFrom_fuel (f1 : nat) :
  forall (f2 : nat) (s : string),
    String.length s <= f1 -> String.length s <= f2 ->
    tokenizeFrom f1 s = tokenizeFrom f2 s.
Proof.
  induction f1 as [|f1 IH]; intros f2 s H1 H2.
  - destruct s; simpl in H1; [|lia]. destruct f2; reflexivity.
  - destruct s as [|ch rest]; [destruct f2; reflexivity|].
    destruct f2 as [|f2]; simpl in H1, H2; [lia|]. simpl.
    pose proof (scanQuoted_length rest) as HQ.
    pose proof (scanWord_length rest) as HW.
    destruct (isspace ch); [apply IH; lia|].
    destruct (ch =? dquote)%char.
    { destruct (scanQuoted rest) as [lit r']; simpl in HQ.
      f_equal; apply IH; lia. }
    destruct (isSingleCharToken ch); [f_equal; apply IH; lia|].
    destruct (isWordChar ch).
    { destruct (scanWord rest) as [w r']; simpl in HW.
      f_equal; apply IH; lia. }
    f_equal; apply IH; lia.
Qed.

(** One iteration of the loop of [tokenizeLine] (lines 15-54). *)
Lemma tokenizeLine_step (ch : ascii) (rest : string) :
  tokenizeLine (String ch rest) =
    if isspace ch then tokenizeLine rest
    else if (ch =? dquote)%char then
      String ch (fst (scanQuoted rest)) :: tokenizeLine (snd (scanQuoted rest))
    else if isSingleCharToken ch then string1 ch :: tokenizeLine rest
    else if isWordChar ch then
      String ch (fst (scanWord rest)) :: tokenizeLine (snd (scanWord rest))
    else string1 ch :: tokenizeLine rest.
Proof.
  unfold tokenizeLine; simpl.
  pose proof (scanQuoted_length rest) as HQ.
  pose proof (scanWord_length rest) as HW.
  destruct (isspace ch); [reflexivity|].
  destruct (ch =? dquote)%char.
  { destruct (scanQuoted rest) as [lit r']; simpl in *.
    f_equal; apply tokenizeFrom_fuel; lia. }
  destruct (isSingleCharToken ch); [reflexivity|].
  destruct (isWordChar ch); [|reflexivity].
  destruct (scanWord rest) as [w r']; simpl in *.
  f_equal; apply tokenizeFrom_fuel; lia.
Qed.

Lemma tokenizeLine_nil : tokenizeLine EmptyString = [].
Proof. reflexivity. Qed.

Lemma scanQuoted_noquote (s : string) :
  hasQuote s = false -> scanQuoted s = (s, EmptyString).
Proof.
  induction s as [|c r IH]; simpl; [reflexivity|].
  destruct (c =? dquote)%char; simpl; [discriminate|].
  intros H; rewrite (IH H); reflexivity.
Qed.

Lemma scanQuoted_closing (s post : string) :
  hasQuote s = false ->
  scanQuoted (s ++ String dquote post) = ((s ++ string1 dquote)%string, post).
Proof.
  induction s as [|c r IH]; simpl; [reflexivity|].
  destruct (c =? dquote)%char; simpl; [discriminate|].
  intros H; rewrite (IH H); reflexivity.
Qed.

(** A scan that meets its closing quote does not depend on what
    follows. *)
Lemma scanQuoted_app (s x : string) :
  hasQuote s = true ->
  scanQuoted (s ++ x) = (fst (scanQuoted s), (snd (scanQuoted s) ++ x)%string).
Proof.
  induction s as [|c r IH]; simpl; [discriminate|].
  destruct (c =? dquote)%char; simpl; [reflexivity|].
  intros H; rewrite (IH H). destruct (scanQuoted r); reflexivity.
Qed.

Lemma scanQuoted_count (s : string) :
  hasQuote s = true ->
  countQuotes s = S (countQuotes (snd (scanQuoted s))).
Proof.
  induction s as [|c r IH]; simpl; [discriminate|].
  destruct (c =? dquote)%char; simpl; [reflexivity|].
  intros H; rewrite (IH H). destruct (scanQuoted r); reflexivity.
Qed.

Lemma countQuotes_hasQuote (s : string) :
  hasQuote s = false -> countQuotes s = 0.
Proof.
  induction s as [|c r IH]; simpl; [reflexivity|].
  destruct (c =? dquote)%char; simpl; [discriminate | exact IH].
Qed.

Lemma isWordChar_dquote (c : ascii) :
  isWordChar c = true -> (c =? dquote)%char = false.
Proof.
  destruct (Ascii.eqb_spec c dquote) as [->|]; [|reflexivity].
  vm_compute; discriminate.
Qed.

Lemma scanWord_app (s x : string) :
  scanWord (s ++ String dquote x) =
    (fst (scanWord s), (snd (scanWord s) ++ String dquote x)%string).
Proof.
  induction s as [|c r IH]; simpl; [reflexivity|].
  destruct (isWordChar c); simpl; [|reflexivity].
  rewrite IH. destruct (scanWord r); reflexivity.
Qed.

Lemma scanWord_count (s : string) :
  countQuotes (snd (scanWord s)) = countQuotes s.
Proof.
  induction s as [|c r IH]; simpl; [reflexivity|].
  destruct (isWordChar c) eqn:E; simpl; [|reflexivity].
  rewrite (isWordChar_dquote _ E). simpl.
  destruct (scanWord r); simpl in *; exact IH.
Qed.

(** A quote that follows a text whose quotes are all matched starts a
    token: the tokens before it are those of the text alone. *)
Lemma tokenizeLine_before_quote (n : nat) :
  forall pre rest : string,
    String.length pre <= n ->
    quotesClosed pre = true ->
    tokenizeLine (pre ++ String dquote rest) =
      tokenizeLine pre ++ tokenizeLine (String dquote rest).
Proof.
  induction n as [|n IH]; intros pre rest Hlen Hq.
  - destruct pre; simpl in Hlen; [reflexivity | lia].
  - destruct pre as [|ch p]; [reflexivity|].
    simpl in Hlen. unfold quotesClosed in *. simpl in Hq.
    change (String ch p ++ String dquote rest)%string
      with (String ch (p ++ String dquote rest)).
    rewrite (tokenizeLine_step ch (p ++ String dquote rest)).
    rewrite (tokenizeLine_step ch p).
    destruct (isspace ch) eqn:Esp.
    { destruct (ch =? dquote)%char eqn:Eq.
      - apply Ascii.eqb_eq in Eq; subst ch. vm_compute in Esp; discriminate.
      - apply IH; [lia | exact Hq]. }
    destruct (ch =? dquote)%char eqn:Eq.
    { assert (Hh : hasQuote p = true).
      { destruct (hasQuote p) eqn:E; [reflexivity|].
        rewrite (countQuotes_hasQuote _ E) in Hq. discriminate. }
      rewrite (scanQuoted_app p _ Hh). simpl fst; simpl snd.
      rewrite (scanQuoted_count p Hh) in Hq.
      pose proof (scanQuoted_length p) as HL.
      rewrite IH; [reflexivity | lia |].
      simpl in Hq. exact Hq. }
    simpl in Hq.
    destruct (isSingleCharToken ch).
    { rewrite IH; [reflexivity | lia | exact Hq]. }
    destruct (isWordChar ch).
    { rewrite scanWord_app. simpl fst; simpl snd.
      pose proof (scanWord_length p) as HL.
      rewrite IH; [reflexivity | lia |].
      rewrite scanWord_count. exact Hq. }
    rewrite IH; [reflexivity | lia | exact Hq].
Qed.

End Tokenizer.

(** C6: a double quote that follows a text whose quotes are all matched
    opens a string literal.  When no further quote follows on the line,
    the literal is one token that runs from the opening quote to the end
    of the line and is the last token, with no closing quote added; when a
    closing quote follows, the token is the text between the two quotes
    with both quotes, and tokenizing goes on after it. *)
Theorem tokenizeLine_string_literal (pre lit post : string) :
  quotesClosed pre = true ->
  hasQuote lit = false ->
  tokenizeLine (pre ++ String dquote lit) =
    tokenizeLine pre ++ [String dquote lit]
  /\ tokenizeLine (pre ++ String dquote (lit ++ String dquote post)) =
       tokenizeLine pre
       ++ String dquote (lit ++ string1 dquote) :: tokenizeLine post.
Proof.
  intros Hpre Hlit. split.
  - rewrite (tokenizeLine_before_quote (String.length pre)) by auto.
    f_equal. rewrite tokenizeLine_step.
    rewrite (scanQuoted_noquote lit Hlit). reflexivity.
  - rewrite (tokenizeLine_before_quote (String.length pre)) by auto.
    f_equal. rewrite tokenizeLine_step.
    rewrite (scanQuoted_closing lit post Hlit). reflexivity.
Qed.

Lemma tokenizeLine_string_literal_witness :
  quotesClosed "dekhao(" = true /\ hasQuote "Hi, x)" = false
  /\ tokenizeLine ("dekhao(" ++ String dquote "Hi, x)") =
       ["dekhao"; "("; String dquote "Hi, x)"]
  /\ tokenizeLine ("dekhao(" ++ String dquote ("Hi, x)" ++ String dquote ", y)")) =
       ["dekhao"; "("; String dquote ("Hi, x)" ++ string1 dquote); ","; "y"; ")"].
Proof.
  split; [reflexivity|]. split; [reflexivity|].
  exact (tokenizeLine_string_literal "dekhao(" "Hi, x)" ", y)" eq_refl eq_refl).
Defined.

(** ** Token tests *)

Section TokenTests.

Lemma isNewlineToken_NL : isNewlineToken NL = true.
Proof. reflexivity. Qed.

Lemma isNewlineToken_eq (t : token) : isNewlineToken t = true -> t = NL.
Proof. unfold isNewlineToken. apply String.eqb_eq. Qed.

Lemma isTypeKeyword_cases (t : token) :
  isTypeKeyword t = true -> t = "integer" \/ t = "float" \/ t = "string".
Proof.
  unfold isTypeKeyword. intros H.
  destruct (String.eqb_spec t "integer"); [now left|].
  destruct (String.eqb_spec t "float"); [now right; left|].
  destruct (String.eqb_spec t "string"); [now right; right|].
  discriminate.
Qed.

(** The Argument Splitter's word test is the glossary's. *)
Lemma argWordLike_spec (t : token) : argWordLike t = specWordLike t.
Proof. destruct t as [|c r]; reflexivity. Qed.

(** The Expression Reader's word test is the glossary's on every token
    but an unterminated literal. *)
Lemma wordLike_spec (t : token) :
  unterminatedLiteral t = false -> wordLike t = specWordLike t.
Proof.
  unfold unterminatedLiteral, wordLike.
  destruct t as [|c r]; [reflexivity|].
  cbn [front specWordLike]. fold (isWordChar c).
  destruct (c =? dquote)%char eqn:Eq.
  - rewrite andb_true_l, orb_true_r. intros H.
    apply negb_false_iff in H. rewrite andb_true_r.
    rewrite H. reflexivity.
  - intros _. rewrite andb_false_r, andb_false_l, orb_false_r.
    reflexivity.
Qed.

Lemma wordLike_unterminated (t : token) :
  unterminatedLiteral t = true -> wordLike t = false /\ argWordLike t = true.
Proof.
  unfold unterminatedLiteral, wordLike.
  destruct t as [|c r]; [discriminate|].
  cbn [front argWordLike]. intros H.
  apply andb_true_iff in H as [Hc H].
  apply negb_true_iff in H. rewrite Hc, andb_true_r, orb_true_r.
  rewrite H. split; [|reflexivity].
  apply Ascii.eqb_eq in Hc; subst c. reflexivity.
Qed.

End TokenTests.

(** ** Expression Reader *)

Section ExpressionReader.

Lemma readExprLoop_length (tok : list token) :
  forall oss, List.length (snd (readExprLoop tok oss)) <= List.length tok.
Proof.
  induction tok as [|t rest IH]; intros oss; simpl; [lia|].
  destruct (isNewlineToken t); simpl; [lia|].
  destruct (t =? "te")%string; [specialize (IH oss); lia|].
  match goal with |- context [readExprLoop rest ?o] => specialize (IH o) end.
  lia.
Qed.

(** On an initializer without line boundary, stray [te] or unterminated
    literal, the reader writes the re-serialization of the
    specification and stops at the line boundary. *)
Lemma readExprLoop_join (expr rest : list token) :
  forallb exprToken expr = true ->
  forall oss,
    readExprLoop (expr ++ NL :: rest) oss =
      ((oss ++ joinTokens expr)%string, NL :: rest).
Proof.
  induction expr as [|t expr IH]; intros Hall oss.
  - simpl. rewrite append_nil_r. reflexivity.
  - simpl in Hall. apply andb_true_iff in Hall as [Ht Hall].
    unfold exprToken in Ht.
    apply andb_true_iff in Ht as [Ht Hlit].
    apply andb_true_iff in Ht as [Hnl Hte].
    apply negb_true_iff in Hnl, Hte, Hlit.
    cbn [app readExprLoop]. rewrite Hnl, Hte.
    rewrite (IH Hall). cbn [joinTokens].
    rewrite !append_assoc. do 3 f_equal.
    destruct expr as [|next expr']; cbn [app specSeparator].
    + unfold exprNeedSpace. rewrite isNewlineToken_NL. reflexivity.
    + simpl in Hall. apply andb_true_iff in Hall as [Hn _].
      unfold exprToken in Hn.
      apply andb_true_iff in Hn as [Hn Hlit'].
      apply andb_true_iff in Hn as [Hnl' _].
      apply negb_true_iff in Hlit'.
      unfold exprNeedSpace. rewrite Hnl'. cbn [andb].
      rewrite (wordLike_spec t Hlit), (wordLike_spec next Hlit').
      reflexivity.
Qed.

End ExpressionReader.

(** ** The statement loop *)

Section StatementLoop.

(** Takes the induction hypothesis of a loop at the arguments of the
    recursive call in the goal. *)
Ltac at_recursive_call IH :=
  match goal with
  | |- context [splitArgsLoop _ ?d ?c ?a] => specialize (IH d c a)
  | |- context [readExprLoop _ ?o] => specialize (IH o)
  end.

Lemma skipNewlines_length (tok : list token) :
  List.length (skipNewlines tok) <= List.length tok.
Proof.
  induction tok as [|t r IH]; simpl; [lia|].
  destruct (isNewlineToken t); simpl; lia.
Qed.

Lemma skipToEOL_length (tok : list token) :
  List.length (skipToEOL tok) <= List.length tok.
Proof.
  induction tok as [|t r IH]; simpl; [lia|].
  destruct (isNewlineToken t); simpl; lia.
Qed.

Lemma skipNewlines_idem (tok : list token) :
  skipNewlines (skipNewlines tok) = skipNewlines tok.
Proof.
  induction tok as [|t r IH]; simpl; [reflexivity|].
  destruct (isNewlineToken t) eqn:E; [exact IH|].
  simpl. rewrite E. reflexivity.
Qed.

Lemma skipNewlines_head (tok : list token) (t : token) (r : list token) :
  skipNewlines tok = t :: r -> isNewlineToken t = false.
Proof.
  induction tok as [|x tok IH]; simpl; [discriminate|].
  destruct (isNewlineToken x) eqn:E; [exact IH|].
  intros H; injection H as <- _. exact E.
Qed.

Lemma skipToEOL_line (line rest : list token) :
  oneLine line = true ->
  skipToEOL (line ++ NL :: rest) = NL :: rest.
Proof.
  induction line as [|t line IH]; simpl; [reflexivity|].
  intros H. apply andb_true_iff in H as [Ht H].
  apply negb_true_iff in Ht. rewrite Ht. exact (IH H).
Qed.

Lemma splitArgsLoop_length (tok : list token) :
  forall depth cur args,
    List.length (snd (splitArgsLoop tok depth cur args)) <= List.length tok.
Proof.
  induction tok as [|t rest IH]; intros depth cur args; simpl; [lia|].
  destruct (t =? "(")%string; [at_recursive_call IH; lia|].
  destruct (t =? ")")%string.
  { destruct depth; simpl; [lia|]. at_recursive_call IH; lia. }
  destruct ((t =? ",")%string && (depth =? 0)%nat);
    [at_recursive_call IH; lia|].
  destruct (negb (isNewlineToken t)); at_recursive_call IH; lia.
Qed.

(** The dispatch consumes at least the token it looks at. *)
Lemma statement_length (t : token) (r : list token) (st : State) :
  isNewlineToken t = false ->
  List.length (fst (statement (t :: r) st)) <= List.length r.
Proof.
  intros Hnl. unfold statement.
  destruct (t =? "dekhao")%string.
  { destruct r as [|p r']; [simpl; lia|].
    destruct (p =? "(")%string.
    - unfold splitArgs.
      pose proof (splitArgsLoop_length r' 0 EmptyString []) as HL.
      destruct (splitArgsLoop r' 0 EmptyString []) as [args r2].
      simpl in *. pose proof (skipToEOL_length r2). lia.
    - cbn [fst]. apply skipToEOL_length. }
  destruct ((3 <? List.length (t :: r))%nat && isTypeKeyword t).
  { destruct r as [|x r1]; [simpl; lia|].
    unfold readExprUntilEOL.
    match goal with |- context [readExprLoop ?a ?b] =>
      pose proof (readExprLoop_length a b) as HL;
      destruct (readExprLoop a b) as [expr r3] end.
    simpl in *.
    destruct r1 as [|m r1']; simpl in *; [lia|].
    destruct (m =? "te")%string; simpl in *; lia. }
  simpl. rewrite Hnl. simpl. apply skipToEOL_length.
Qed.

(** The loop of [transpile] never runs out of iterations: any two
    budgets that cover the number of tokens give the same state. *)
Lemma transpileLoop_fuel (f1 : nat) :
  forall (f2 : nat) (tok : list token) (st : State),
    List.length tok <= f1 -> List.length tok <= f2 ->
    transpileLoop f1 tok st = transpileLoop f2 tok st.
Proof.
  induction f1 as [|f1 IH]; intros f2 tok st H1 H2.
  - destruct tok; simpl in H1; [|lia]. destruct f2; reflexivity.
  - destruct f2 as [|f2].
    + destruct tok; simpl in H2; [reflexivity | lia].
    + cbn [transpileLoop]. pose proof (skipNewlines_length tok) as HS.
      destruct (skipNewlines tok) as [|t r] eqn:E; [reflexivity|].
      pose proof (statement_length t r st (skipNewlines_head _ _ _ E)) as HL.
      destruct (statement (t :: r) st) as [tok2 st'].
      pose proof (skipNewlines_length tok2).
      cbn [fst List.length] in *. apply IH; lia.
Qed.

(** One iteration of the loop of [transpile] (lines 168-219). *)
Lemma run_step (tok : list token) (st : State) :
  run tok st =
    match skipNewlines tok with
    | [] => st
    | tok1 =>
        run (skipNewlines (fst (statement tok1 st))) (snd (statement tok1 st))
    end.
Proof.
  unfold run. destruct tok as [|x tok']; [reflexivity|].
  cbn [List.length transpileLoop].
  pose proof (skipNewlines_length (x :: tok')) as HS.
  destruct (skipNewlines (x :: tok')) as [|t r] eqn:E; [reflexivity|].
  pose proof (statement_length t r st (skipNewlines_head _ _ _ E)) as HL.
  destruct (statement (t :: r) st) as [tok2 st'].
  pose proof (skipNewlines_length tok2).
  cbn [fst snd List.length] in *. apply transpileLoop_fuel; lia.
Qed.

Lemma run_nil (st : State) : run [] st = st.
Proof. reflexivity. Qed.

Lemma run_skipNewlines (tok : list token) (st : State) :
  run (skipNewlines tok) st = run tok st.
Proof.
  rewrite (run_step tok), (run_step (skipNewlines tok)).
  rewrite skipNewlines_idem. reflexivity.
Qed.

Lemma run_NL (rest : list token) (st : State) :
  run (NL :: rest) st = run rest st.
Proof.
  rewrite <- (run_skipNewlines (NL :: rest)).
  cbn [skipNewlines]. rewrite isNewlineToken_NL.
  apply run_skipNewlines.
Qed.

(** The loop at the first token of a line: the dispatch, then the loop
    again where the dispatch stopped. *)
Lemma run_statement (t : token) (r : list token) (st : State) :
  isNewlineToken t = false ->
  run (t :: r) st = run (fst (statement (t :: r) st)) (snd (statement (t :: r) st)).
Proof.
  intros Hnl. rewrite run_step. cbn [skipNewlines]. rewrite Hnl.
  apply run_skipNewlines.
Qed.

End StatementLoop.

(** ** Declarations *)

Lemma isTypeKeyword_not_special (ty : token) :
  isTypeKeyword ty = true ->
  isNewlineToken ty = false /\ (ty =? "dekhao")%string = false.
Proof.
  intros H. destruct (isTypeKeyword_cases ty H) as [->|[->| ->]];
    split; reflexivity.
Qed.

(** C1 (amended): at a line [<type> <id> te <expr>] whose first token is
    one of the type keywords [integer], [float], [string] and whose
    expression holds no further [te] token and no unterminated string
    literal, the transpiler emits exactly one code line, which declares
    [<id>] with the mapped type ([integer] to [int], [float] to [float],
    [string] to [std::string]; any other text unchanged) initialized to
    the re-serialized expression: adjacent word-like tokens separated by
    exactly one space, all other adjacent tokens with nothing between
    them.  The loop then goes on with the tokens after the line. *)
Theorem declaration_line (ty id : token) (expr rest : list token) (st : State) :
  isTypeKeyword ty = true ->
  forallb exprToken expr = true ->
  run (ty :: id :: "te" :: expr ++ NL :: rest) st =
    run rest
      (mkState
         (body st ++ [(cppType ty ++ " " ++ id ++ " = " ++ joinTokens expr ++ ";")%string])
         (if (ty =? "string")%string then true else usesString st)
         (if (ty =? "float")%string then true else usesFloat st))
  /\ cppType "integer" = "int"
  /\ cppType "float" = "float"
  /\ cppType "string" = "std::string"
  /\ (forall t : token, isTypeKeyword t = false -> cppType t = t).
Proof.
  intros Hty Hexpr. split; [|repeat split].
  - destruct (isTypeKeyword_not_special ty Hty) as [Hnl Hd].
    rewrite (run_statement _ _ _ Hnl).
    unfold statement. rewrite Hd.
    replace ((3 <? List.length (ty :: id :: "te" :: expr ++ NL :: rest))%nat)
      with true.
    2:{ symmetry. apply Nat.ltb_lt. cbn [List.length].
        rewrite length_app. cbn [List.length]. lia. }
    rewrite Hty. cbn [andb tl]. rewrite String.eqb_refl.
    unfold readExprUntilEOL.
    rewrite (readExprLoop_join expr rest Hexpr EmptyString).
    cbn [fst snd]. rewrite run_NL. reflexivity.
  - intros t Ht. unfold isTypeKeyword in Ht. unfold cppType.
    destruct (t =? "integer")%string; [discriminate|].
    destruct (t =? "float")%string; [discriminate|].
    destruct (t =? "string")%string; [discriminate|].
    reflexivity.
Qed.

Lemma declaration_line_witness :
  isTypeKeyword "integer" = true
  /\ forallb exprToken ["5"; "+"; "y"; "z"] = true
  /\ run (tokenizeLines ["integer count te 5 + y z"]) initState =
       mkState ["int count = 5+y z;"] false false.
Proof.
  split; [reflexivity|]. split; [reflexivity|].
  exact (proj1 (declaration_line "integer" "count" ["5"; "+"; "y"; "z"] []
                  initState eq_refl eq_refl)).
Defined.

(** C1 as stated fails on the code.  A [te] token inside the expression
    is not emitted, while the space decided against it stays: the
    initializer is neither the re-serialized expression nor the
    re-serialized expression without its [te].  And a token before an
    unterminated string literal gets no space. *)
Lemma declaration_line_counterexample :
  (tokenizeLines ["integer x te a te + b"] =
     "integer" :: "x" :: "te" :: ["a"; "te"; "+"; "b"] ++ [NL]
   /\ oneLine ["a"; "te"; "+"; "b"] = true
   /\ body (transpileState (tokenizeLines ["integer x te a te + b"])) =
        ["int x = a +b;"]
   /\ body (transpileState (tokenizeLines ["integer x te a te + b"])) <>
        [declLine "integer" "x" (joinTokens ["a"; "te"; "+"; "b"])]
   /\ body (transpileState (tokenizeLines ["integer x te a te + b"])) <>
        [declLine "integer" "x" (joinTokens ["a"; "+"; "b"])])
  /\
  (tokenizeLines [("string s te x " ++ String dquote "abc")%string] =
     "string" :: "s" :: "te" :: ["x"; String dquote "abc"] ++ [NL]
   /\ oneLine ["x"; String dquote "abc"] = true
   /\ body (transpileState
              (tokenizeLines [("string s te x " ++ String dquote "abc")%string])) =
        [("std::string s = x" ++ String dquote "abc;")%string]
   /\ body (transpileState
              (tokenizeLines [("string s te x " ++ String dquote "abc")%string])) <>
        [declLine "string" "s" (joinTokens ["x"; String dquote "abc"])]).
Proof.
  repeat split; try (vm_compute; discriminate).
Qed.

(** C5 (amended): the line [float ratio te total / count] sets the float
    feature flag and emits one declaration of [ratio] with type [float]
    whose initializer is exactly [total/count], without spaces around the
    operator. *)
Theorem float_ratio_scenario :
  tokenizeLines ["float ratio te total / count"] =
    ["float"; "ratio"; "te"; "total"; "/"; "count"; NL]
  /\ transpileState (tokenizeLines ["float ratio te total / count"]) =
       mkState [declLine "float" "ratio" "total/count"] false true
  /\ declLine "float" "ratio" "total/count" = "float ratio = total/count;".
Proof. repeat split. Qed.

(** C5 as stated fails on the code: the initializer is not
    [total / count]. *)
Lemma float_ratio_counterexample :
  body (transpileState (tokenizeLines ["float ratio te total / count"])) <>
    [declLine "float" "ratio" "total / count"].
Proof. vm_compute. discriminate. Qed.

(** C3: the guard of line 196 counts the tokens left in the whole token
    sequence, line-boundary markers and later lines included.  A type
    keyword with fewer than three more tokens on its line is skipped only
    when the sequence ends soon enough; followed by a later line it is
    taken for a declaration and a code line is emitted. *)
Theorem short_declaration_emitted :
  transpileState (tokenizeLines ["integer x"]) = initState
  /\ tokenizeLines ["integer x"; "y"] = ["integer"; "x"; NL; "y"; NL]
  /\ body (transpileState (tokenizeLines ["integer x"; "y"])) = ["int x = ;"]
  /\ body (transpileState (tokenizeLines ["integer"; "x te 5"])) =
       [("int " ++ NL ++ " = x 5;")%string].
Proof. repeat split. Qed.

(** ** Skipped lines *)

(** A line on which both tests of the dispatch fail (lines 174-178 and
    196) is discarded up to its line boundary with the body and both
    feature flags unchanged, and the loop goes on with the next line: the
    run ends in the state it would end in without that line. *)
Lemma undispatched_line_skipped
  (t : token) (more rest : list token) (st : State) :
  oneLine (t :: more) = true ->
  isPrintCall (t :: more ++ NL :: rest) = false ->
  isDeclaration (t :: more ++ NL :: rest) = false ->
  statement (t :: more ++ NL :: rest) st = (NL :: rest, st)
  /\ run (t :: more ++ NL :: rest) st = run rest st.
Proof.
  intros Hline Hprint Hdecl.
  cbn [oneLine forallb] in Hline. apply andb_true_iff in Hline as [Ht Hmore].
  apply negb_true_iff in Ht.
  assert (Hs : statement (t :: more ++ NL :: rest) st = (NL :: rest, st)).
  { unfold statement. unfold isDeclaration in Hdecl.
    destruct (t =? "dekhao")%string eqn:Ed.
    - destruct more as [|p more']; cbn [app].
      + reflexivity.
      + cbn [isPrintCall app] in Hprint. rewrite Ed in Hprint.
        cbn [andb] in Hprint. rewrite Hprint.
        f_equal. apply (skipToEOL_line (p :: more') rest Hmore).
    - cbn [negb andb] in Hdecl. rewrite Hdecl.
      f_equal. apply (skipToEOL_line (t :: more) rest).
      cbn [oneLine forallb]. rewrite Ht. exact Hmore. }
  split; [exact Hs|].
  rewrite (run_statement _ _ _ Ht), Hs. cbn [fst snd]. apply run_NL.
Qed.

(** C7: the code does not skip every line that matches neither
    statement shape.  The line [string s] is no print statement and has a
    single token after its type keyword, so it is no declaration
    [<type> <id> te <expr>] either; followed by the line [y], the guard
    of line 196 counts the marker and the tokens of the later line, the
    declaration branch runs, the line [std::string s = ;] is emitted and
    [usesString] is set, where skipping the line would leave the run as
    it is on the line [y] alone, with an empty body and both flags
    false. *)
Theorem unmatched_line_not_skipped :
  tokenizeLines ["string s"; "y"] = ["string"; "s"; NL; "y"; NL]
  /\ isPrintCall (tokenizeLines ["string s"; "y"]) = false
  /\ List.length (tokenizeLine "string s") = 2
  /\ transpileState (tokenizeLines ["string s"; "y"]) =
       mkState ["std::string s = ;"] true false
  /\ transpileState (tokenizeLines ["y"]) = initState
  /\ hasStringHeader (transpile (tokenizeLines ["string s"; "y"])) = true.
Proof. repeat split. Qed.

(** ** Argument Splitter *)

Section ArgumentSplitter.

(** What a sequence of flushes adds to the argument list. *)
Lemma flushArg_app (cur : string) (args : list string) :
  flushArg cur args = args ++ filter nonEmpty [trim cur].
Proof.
  unfold flushArg. cbn [filter].
  destruct (trim cur); cbn [nonEmpty]; [now rewrite app_nil_r | reflexivity].
Qed.

Lemma flush_groups (groups : list (list token)) :
  forall args : list string,
    fold_left (fun a g => flushArg (joinTokens g) a) groups args =
      args ++ filter nonEmpty (map (fun g => trim (joinTokens g)) groups).
Proof.
  induction groups as [|g gs IH]; intros args; cbn [fold_left map].
  - cbn [filter]. now rewrite app_nil_r.
  - rewrite IH, flushArg_app, <- app_assoc. f_equal.
    cbn [filter]. destruct (nonEmpty (trim (joinTokens g))); reflexivity.
Qed.

Lemma topLevelGroups_cons (toks : list token) (depth : nat) :
  exists g gs, topLevelGroups toks depth = g :: gs.
Proof.
  destruct toks as [|t rest]; cbn [topLevelGroups]; [now eexists; eexists|].
  destruct ((t =? ",")%string && (depth =? 0)%nat); [now eexists; eexists|].
  match goal with |- context [topLevelGroups rest ?d] =>
    destruct (topLevelGroups rest d) end; now eexists; eexists.
Qed.

(** The space the splitter writes after a token is the separator of the
    specification inside the token's group: the token that follows is
    the next token of the group, or it ends the group and is not
    word-like. *)
Lemma argNeedSpace_group (t : token) (toks tail : list token) (depth : nat) :
  (if match toks ++ ")" :: tail with
      | nxt :: _ => argNeedSpace t nxt
      | [] => false
      end
   then " " else EmptyString) =
    specSeparator t (hd [] (topLevelGroups toks depth)).
Proof.
  destruct toks as [|x toks']; cbn [app].
  - cbn [topLevelGroups hd specSeparator]. unfold argNeedSpace.
    rewrite andb_false_r. reflexivity.
  - cbn [topLevelGroups].
    destruct ((x =? ",")%string && (depth =? 0)%nat) eqn:Ec.
    + apply andb_true_iff in Ec as [Ec _]. apply String.eqb_eq in Ec.
      subst x. cbn [hd specSeparator]. unfold argNeedSpace.
      rewrite andb_false_r. reflexivity.
    + match goal with |- context [topLevelGroups toks' ?d] =>
        destruct (topLevelGroups toks' d) end;
        cbn [hd specSeparator]; unfold argNeedSpace;
        rewrite !argWordLike_spec; reflexivity.
Qed.

(** The state of the splitter at the closing parenthesis of a call
    written on one line: the groups of the specification, flushed in
    order. *)
Lemma splitArgsLoop_closed (toks tail : list token) :
  forall (depth : nat) (cur : string) (args : list string),
    oneLine toks = true ->
    depthAfter toks depth = Some 0 ->
    splitArgsLoop (toks ++ ")" :: tail) depth cur args =
      (fold_left (fun a g => flushArg (joinTokens g) a)
         (tl (topLevelGroups toks depth))
         (flushArg (cur ++ joinTokens (hd [] (topLevelGroups toks depth))) args),
       tail).
Proof.
  induction toks as [|t toks IH]; intros depth cur args Hline Hdepth.
  - cbn in Hdepth. injection Hdepth as ->.
    cbn. rewrite append_nil_r. reflexivity.
  - cbn [oneLine forallb] in Hline.
    apply andb_true_iff in Hline as [Ht Hline].
    apply negb_true_iff in Ht.
    cbn [depthAfter] in Hdepth.
    cbn [app splitArgsLoop topLevelGroups].
    destruct (t =? "(")%string eqn:Eo.
    { apply String.eqb_eq in Eo; subst t. cbn [String.eqb Ascii.eqb Bool.eqb andb].
      rewrite (IH _ _ _ Hline Hdepth).
      destruct (topLevelGroups_cons toks (S depth)) as (g & gs & ->).
      cbn [hd tl joinTokens specSeparator].
      replace (specSeparator "(" g) with EmptyString
        by (destruct g; reflexivity).
      rewrite !append_assoc. reflexivity. }
    destruct (t =? ")")%string eqn:Ec.
    { apply String.eqb_eq in Ec; subst t. cbn [String.eqb Ascii.eqb Bool.eqb andb].
      destruct depth as [|d]; [discriminate|].
      rewrite (IH _ _ _ Hline Hdepth). cbn [pred].
      destruct (topLevelGroups_cons toks d) as (g & gs & ->).
      cbn [hd tl joinTokens].
      replace (specSeparator ")" g) with EmptyString
        by (destruct g; reflexivity).
      rewrite !append_assoc. reflexivity. }
    destruct ((t =? ",")%string && (depth =? 0)%nat) eqn:Eq.
    { rewrite (IH _ _ _ Hline Hdepth).
      destruct (topLevelGroups_cons toks depth) as (g & gs & ->).
      cbn [hd tl joinTokens fold_left]. rewrite append_nil_r.
      reflexivity. }
    rewrite Ht. cbn [negb].
    rewrite (IH _ _ _ Hline Hdepth).
    rewrite (argNeedSpace_group t toks tail depth).
    destruct (topLevelGroups_cons toks depth) as (g & gs & ->).
    cbn [hd tl joinTokens]. rewrite !append_assoc. reflexivity.
Qed.

(** The Argument Splitter on a call closed on its line returns the
    argument strings of the specification and stops after the closing
    parenthesis. *)
Lemma splitArgs_closed (toks tail : list token) :
  oneLine toks = true ->
  depthAfter toks 0 = Some 0 ->
  splitArgs (toks ++ ")" :: tail) = (specArgs toks, tail).
Proof.
  intros Hline Hdepth. unfold splitArgs, specArgs.
  rewrite (splitArgsLoop_closed toks tail 0 EmptyString [] Hline Hdepth).
  f_equal.
  destruct (topLevelGroups_cons toks 0) as (g & gs & ->).
  cbn [hd tl]. rewrite flush_groups, flushArg_app.
  cbn [app map filter String.append].
  destruct (nonEmpty (trim (joinTokens g))); reflexivity.
Qed.

Lemma beforeLastComma_prefix (toks : list token) :
  forall (depth : nat) (pre : list token),
    beforeLastComma toks depth = Some pre ->
    exists post, toks = pre ++ "," :: post.
Proof.
  induction toks as [|t toks IH]; intros depth pre; cbn [beforeLastComma];
    [discriminate|].
  match goal with |- context [beforeLastComma toks ?d] =>
    destruct (beforeLastComma toks d) as [pre'|] eqn:E end.
  - intros H; injection H as <-.
    destruct (IH _ _ E) as [post ->]. now exists post.
  - destruct ((t =? ",")%string && (depth =? 0)%nat) eqn:Ec; [|discriminate].
    intros H; injection H as <-.
    apply andb_true_iff in Ec as [Ec _]. apply String.eqb_eq in Ec.
    subst t. now exists toks.
Qed.

(** The lookahead of the splitter at the end of the tokens before a
    top-level comma sees the comma, which is not word-like, as it sees
    the closing parenthesis put in its place. *)
Lemma argNeedSpace_prefix (t : token) (pre post : list token) :
  match pre ++ "," :: post with
  | nxt :: _ => argNeedSpace t nxt
  | [] => false
  end =
  match pre ++ [")"] with
  | nxt :: _ => argNeedSpace t nxt
  | [] => false
  end.
Proof.
  destruct pre; cbn [app]; [|reflexivity].
  unfold argNeedSpace. now rewrite !andb_false_r.
Qed.

(** Without a closing parenthesis at depth zero the splitter reads to
    the end of the tokens and returns what it had flushed at the last
    top-level comma. *)
Lemma splitArgsLoop_unclosed (toks : list token) :
  forall (depth : nat) (cur : string) (args : list string),
    neverCloses toks depth = true ->
    splitArgsLoop toks depth cur args =
      (match beforeLastComma toks depth with
       | Some pre => fst (splitArgsLoop (pre ++ [")"]) depth cur args)
       | None => args
       end, []).
Proof.
  unfold neverCloses.
  induction toks as [|t toks IH]; intros depth cur args Hopen;
    [reflexivity|].
  cbn [depthAfter] in Hopen.
  cbn [splitArgsLoop beforeLastComma].
  destruct (t =? "(")%string eqn:Eo.
  { apply String.eqb_eq in Eo; subst t. cbn [String.eqb Ascii.eqb Bool.eqb andb].
    rewrite (IH _ _ _ Hopen).
    destruct (beforeLastComma toks (S depth)); reflexivity. }
  destruct (t =? ")")%string eqn:Ec.
  { apply String.eqb_eq in Ec; subst t. cbn [String.eqb Ascii.eqb Bool.eqb andb].
    destruct depth as [|d]; [discriminate|].
    rewrite (IH _ _ _ Hopen). cbn [pred].
    destruct (beforeLastComma toks d); reflexivity. }
  destruct ((t =? ",")%string && (depth =? 0)%nat) eqn:Eq.
  { rewrite (IH _ _ _ Hopen).
    destruct (beforeLastComma toks depth) as [pre|].
    - cbn [app splitArgsLoop]. rewrite Eo, Ec, Eq. reflexivity.
    - apply andb_true_iff in Eq as [_ Ed]. apply Nat.eqb_eq in Ed.
      subst depth. reflexivity. }
  destruct (isNewlineToken t) eqn:En; cbn [negb].
  - rewrite (IH _ _ _ Hopen).
    destruct (beforeLastComma toks depth) as [pre|]; [|reflexivity].
    cbn [app splitArgsLoop]. rewrite Eo, Ec, Eq, En. reflexivity.
  - rewrite (IH _ _ _ Hopen).
    destruct (beforeLastComma toks depth) as [pre|] eqn:Eb; [|reflexivity].
    cbn [app splitArgsLoop]. rewrite Eo, Ec, Eq, En. cbn [negb].
    destruct (beforeLastComma_prefix _ _ _ Eb) as [post ->].
    rewrite (argNeedSpace_prefix t pre post). reflexivity.
Qed.

End ArgumentSplitter.

(** C2: at a print line whose keyword is followed by an opening
    parenthesis and whose argument list is closed on the line, the
    transpiler emits exactly one code line: [std::cout], then one output
    operation per top-level comma-separated argument, in argument order
    and with the arguments that are empty after trimming dropped, then
    the output of one newline.  With N such arguments the line holds N
    output operations; an empty call list gives none.  Tokens after the
    closing parenthesis are discarded and the loop goes on with the next
    line. *)
Theorem print_line (argtoks trailing rest : list token) (st : State) :
  oneLine argtoks = true ->
  depthAfter argtoks 0 = Some 0 ->
  oneLine trailing = true ->
  run ("dekhao" :: "(" :: argtoks ++ ")" :: trailing ++ NL :: rest) st =
    run rest
      (mkState
         (body st
          ++ [("std::cout"
               ++ writeAll (map (fun a => " << " ++ a) (specArgs argtoks))
               ++ " << std::endl;")%string])
         (usesString st) (usesFloat st))
  /\ specArgs [] = [].
Proof.
  intros Hargs Hdepth Htrail. split; [|reflexivity].
  rewrite run_statement by reflexivity.
  unfold statement. cbn [String.eqb Ascii.eqb Bool.eqb andb].
  rewrite (splitArgs_closed argtoks _ Hargs Hdepth).
  rewrite (skipToEOL_line trailing rest Htrail).
  cbn [fst snd]. rewrite run_NL. reflexivity.
Qed.

Lemma print_line_witness :
  oneLine [String dquote ("Hello" ++ string1 dquote); ","; ","; "f"; "("; "x"; ","; "y"; ")"; "n"; "1"] = true
  /\ depthAfter [String dquote ("Hello" ++ string1 dquote); ","; ","; "f"; "("; "x"; ","; "y"; ")"; "n"; "1"] 0 = Some 0
  /\ oneLine ["junk"] = true
  /\ run ("dekhao" :: "("
          :: [String dquote ("Hello" ++ string1 dquote); ","; ","; "f"; "("; "x"; ","; "y"; ")"; "n"; "1"]
          ++ ")" :: ["junk"] ++ NL :: []) initState =
       mkState
         [("std::cout << " ++ String dquote ("Hello" ++ String dquote " << f(x,y)n 1 << std::endl;"))%string]
         false false.
Proof.
  split; [reflexivity|]. split; [reflexivity|]. split; [reflexivity|].
  exact (proj1 (print_line
    [String dquote ("Hello" ++ string1 dquote); ","; ","; "f"; "("; "x"; ","; "y"; ")"; "n"; "1"]
    ["junk"] [] initState eq_refl eq_refl eq_refl)).
Defined.

(** C10: when no closing parenthesis at depth zero occurs in the tokens
    left, the Argument Splitter reads all of them, line-boundary markers
    included, which it skips; the text buffered since the last top-level
    comma is dropped, and the arguments returned are those completed by a
    top-level comma: the arguments of the call that ends where the last
    top-level comma stands, and none when there is no such comma. *)
Theorem splitArgs_unclosed (toks : list token) :
  neverCloses toks 0 = true ->
  splitArgs toks =
    (match beforeLastComma toks 0 with
     | Some pre => fst (splitArgs (pre ++ [")"]))
     | None => []
     end, [])
  /\ (forall (rest : list token) (depth : nat) (cur : string) (args : list string),
        splitArgsLoop (NL :: rest) depth cur args =
          splitArgsLoop rest depth cur args).
Proof.
  intros Hopen. split; [|reflexivity].
  unfold splitArgs. apply (splitArgsLoop_unclosed toks 0 EmptyString [] Hopen).
Qed.

Lemma splitArgs_unclosed_witness :
  neverCloses ["a"; ","; "f"; "("; "b"; ")"; ","; "c"; NL; "integer"; "x"; "te"; "5"; NL] 0 = true
  /\ beforeLastComma ["a"; ","; "f"; "("; "b"; ")"; ","; "c"; NL; "integer"; "x"; "te"; "5"; NL] 0 =
       Some ["a"; ","; "f"; "("; "b"; ")"]
  /\ splitArgs ["a"; ","; "f"; "("; "b"; ")"; ","; "c"; NL; "integer"; "x"; "te"; "5"; NL] =
       (["a"; "f(b)"], []).
Proof.
  split; [reflexivity|]. split; [reflexivity|].
  exact (proj1 (splitArgs_unclosed
    ["a"; ","; "f"; "("; "b"; ")"; ","; "c"; NL; "integer"; "x"; "te"; "5"; NL]
    eq_refl)).
Defined.

(** ** Word-like tokens *)




(** ** Feature flags and the generated text *)

Section FeatureFlags.

Section LoopInvariant.

(** A property of the locals of [transpile] that every dispatch keeps
    holds when the loop ends. *)
Variable Inv : State -> Prop.
Hypothesis Inv_statement :
  forall tok st, Inv st -> Inv (snd (statement tok st)).

Lemma transpileLoop_invariant (fuel : nat) :
  forall tok st, Inv st -> Inv (transpileLoop fuel tok st).
Proof.
  induction fuel as [|fuel IH]; intros tok st Hst;
    cbn [transpileLoop]; [exact Hst|].
  destruct (skipNewlines tok) as [|t r]; [exact Hst|].
  pose proof (Inv_statement (t :: r) st Hst) as Hstep.
  destruct (statement (t :: r) st) as [tok2 st']. apply IH, Hstep.
Qed.

End LoopInvariant.

(** The shape of the state after a dispatch: unchanged, one print line
    pushed, or one declaration line pushed with the flags of its type
    keyword set. *)
Lemma statement_cases (tok : list token) (st : State) :
  snd (statement tok st) = st
  \/ (exists args, snd (statement tok st) = pushLine (printLine args) st)
  \/ (exists tkw id expr,
        isTypeKeyword tkw = true
        /\ snd (statement tok st) =
             mkState (body st ++ [declLine tkw id expr])
               (if (tkw =? "string")%string then true else usesString st)
               (if (tkw =? "float")%string then true else usesFloat st)).
Proof.
  unfold statement. destruct tok as [|t rest]; [now left|].
  destruct (t =? "dekhao")%string.
  { destruct rest as [|p rest']; [now left|].
    destruct (p =? "(")%string; [|now left].
    destruct (splitArgs rest') as [args r]. right; left. now exists args. }
  destruct ((3 <? List.length (t :: rest))%nat && isTypeKeyword t) eqn:E;
    [|now left].
  apply andb_true_iff in E as [_ E].
  right; right.
  match goal with |- context [let (id, r1) := ?x in _] =>
    destruct x as [id r1] end.
  match goal with |- context [readExprUntilEOL ?x] =>
    destruct (readExprUntilEOL x) as [expr r3] end.
  exists t, id, expr. split; [exact E | reflexivity].
Qed.

Lemma statement_usesString (tok : list token) (st : State) :
  usesString st = true -> usesString (snd (statement tok st)) = true.
Proof.
  intros H.
  destruct (statement_cases tok st) as [-> | [[args ->] | (tkw & id & e & _ & ->)]];
    cbn [usesString pushLine]; try exact H.
  destruct (tkw =? "string")%string; [reflexivity | exact H].
Qed.

Lemma statement_usesFloat (tok : list token) (st : State) :
  usesFloat st = true -> usesFloat (snd (statement tok st)) = true.
Proof.
  intros H.
  destruct (statement_cases tok st) as [-> | [[args ->] | (tkw & id & e & _ & ->)]];
    cbn [usesFloat pushLine]; try exact H.
  destruct (tkw =? "float")%string; [reflexivity | exact H].
Qed.

Lemma declLine_string_print (id expr : string) (args : list string) :
  declLine "string" id expr <> printLine args.
Proof. unfold declLine, printLine. cbn. discriminate. Qed.

Lemma declLine_string_other (tkw id expr id' expr' : string) :
  isTypeKeyword tkw = true ->
  (tkw =? "string")%string = false ->
  declLine "string" id expr <> declLine tkw id' expr'.
Proof.
  intros Hk Hs.
  destruct (isTypeKeyword_cases tkw Hk) as [->|[->| ->]];
    unfold declLine; cbn; discriminate.
Qed.

Lemma statement_stringFlagInv (tok : list token) (st : State) :
  stringFlagInv st -> stringFlagInv (snd (statement tok st)).
Proof.
  unfold stringFlagInv. intros [H1 H2].
  destruct (statement_cases tok st) as [-> | [[args ->] | (tkw & id & e & Hk & ->)]];
    cbn [usesString body pushLine].
  - split; assumption.
  - split.
    + intros H. destruct (H1 H) as (i & x & Hin).
      exists i, x. apply in_or_app. now left.
    + intros (i & x & Hin). apply H2.
      apply in_app_or in Hin as [Hin | [Hin | []]]; [now exists i, x|].
      symmetry in Hin. now apply declLine_string_print in Hin.
  - destruct (tkw =? "string")%string eqn:Es.
    + apply String.eqb_eq in Es. subst tkw. split; [|reflexivity].
      intros _. exists id, e. apply in_or_app. right. now left.
    + split.
      * intros H. destruct (H1 H) as (i & x & Hin).
        exists i, x. apply in_or_app. now left.
      * intros (i & x & Hin). apply H2.
        apply in_app_or in Hin as [Hin | [Hin | []]]; [now exists i, x|].
        symmetry in Hin. now apply declLine_string_other in Hin.
Qed.

(** The cursor after a dispatch and the line it pushes do not depend on
    the lines and flags collected before. *)
Lemma statement_body (tok : list token) (st : State) :
  fst (statement tok st) = fst (statement tok initState)
  /\ body (snd (statement tok st)) =
       body st ++ body (snd (statement tok initState)).
Proof.
  unfold statement. destruct tok as [|t rest];
    [cbn; now rewrite app_nil_r|].
  destruct (t =? "dekhao")%string.
  { destruct rest as [|p rest']; [cbn; now rewrite app_nil_r|].
    destruct (p =? "(")%string; [|cbn; now rewrite app_nil_r].
    destruct (splitArgs rest') as [args r]. now cbn. }
  destruct ((3 <? List.length (t :: rest))%nat && isTypeKeyword t);
    [|cbn [fst snd body initState]; now rewrite app_nil_r].
  match goal with |- context [let (id, r1) := ?x in _] =>
    destruct x as [id r1] end.
  match goal with |- context [readExprUntilEOL ?x] =>
    destruct (readExprUntilEOL x) as [expr r3] end.
  now cbn.
Qed.

(** The lines a run adds come after the lines already collected, and
    are the lines the run collects from an empty body. *)
Lemma transpileLoop_body (fuel : nat) :
  forall tok st,
    body (transpileLoop fuel tok st) =
      body st ++ body (transpileLoop fuel tok initState).
Proof.
  induction fuel as [|fuel IH]; intros tok st; cbn [transpileLoop];
    [cbn; now rewrite app_nil_r|].
  destruct (skipNewlines tok) as [|t r]; [cbn; now rewrite app_nil_r|].
  destruct (statement_body (t :: r) st) as [Hf Hb].
  destruct (statement (t :: r) st) as [tok2 st'].
  destruct (statement (t :: r) initState) as [tok2' st0].
  cbn [fst snd] in Hf, Hb. subst tok2'.
  rewrite (IH _ st'), (IH _ st0), Hb. cbn [body initState app].
  now rewrite app_assoc.
Qed.

Lemma hasStringHeader_assemble (st : State) :
  hasStringHeader (assemble st) = usesString st.
Proof.
  unfold hasStringHeader, assemble. destruct (usesString st); reflexivity.
Qed.

End FeatureFlags.

(** C8: during a run each feature flag, once true, stays true, at every
    dispatch and to the end of the loop; the generated text has the
    string-type header line exactly when [usesString] is true when the
    text is assembled, which is exactly when the body holds a declaration
    line of the [string] type keyword; and the lines of the body stand in
    source order: the line of the first statement comes before the lines
    of the statements after it, and the text lists the body in order. *)
Theorem feature_flags_and_header (tok : list token) (st : State) :
  (usesString st = true ->
     usesString (snd (statement tok st)) = true
     /\ usesString (run tok st) = true)
  /\ (usesFloat st = true ->
        usesFloat (snd (statement tok st)) = true
        /\ usesFloat (run tok st) = true)
  /\ hasStringHeader (transpile tok) = usesString (transpileState tok)
  /\ (usesString (transpileState tok) = true <->
      exists id expr,
        In (declLine "string" id expr) (body (transpileState tok)))
  /\ body (run tok st) = body st ++ body (transpileState tok)
  /\ (forall t r, tok = t :: r -> isNewlineToken t = false ->
        body (transpileState tok) =
          body (snd (statement tok initState))
          ++ body (transpileState (fst (statement tok initState))))
  /\ transpile tok =
       (("#include <iostream>" ++ nl)
        ++ (if usesString (transpileState tok)
            then "#include <string>" ++ nl else EmptyString)
        ++ ("using namespace std;" ++ nl ++ nl)
        ++ ("int main() {" ++ nl)
        ++ writeAll (map (fun s => "    " ++ s ++ nl) (body (transpileState tok)))
        ++ ("    return 0;" ++ nl ++ "}" ++ nl))%string.
Proof.
  split; [|split; [|split; [|split; [|split; [|split]]]]].
  - intros H. split; [now apply statement_usesString|].
    unfold run.
    apply (transpileLoop_invariant (fun s => usesString s = true));
      [intros; now apply statement_usesString | exact H].
  - intros H. split; [now apply statement_usesFloat|].
    unfold run.
    apply (transpileLoop_invariant (fun s => usesFloat s = true));
      [intros; now apply statement_usesFloat | exact H].
  - apply hasStringHeader_assemble.
  - unfold transpileState, run.
    apply (transpileLoop_invariant stringFlagInv);
      [intros; now apply statement_stringFlagInv|].
    split; [discriminate | intros (i & x & [])].
  - apply transpileLoop_body.
  - intros t r -> Hnl. unfold transpileState.
    rewrite (run_statement t r initState Hnl).
    unfold run. apply transpileLoop_body.
  - reflexivity.
Qed.

Lemma feature_flags_and_header_witness :
  usesString (mkState [] true false) = true
  /\ usesFloat (run (tokenizeLines ["integer n te 1"; "float f te n"])
                  (mkState [] true false)) = true
  /\ usesString (run (tokenizeLines ["integer n te 1"; "float f te n"])
                   (mkState [] true false)) = true.
Proof.
  split; [reflexivity|]. split; [reflexivity|].
  exact (proj2 (proj1 (feature_flags_and_header
    (tokenizeLines ["integer n te 1"; "float f te n"])
    (mkState [] true false)) eq_refl)).
Defined.

(** ** The exit status *)

Section ExitStatus.

Lemma getlines_nil (content : string) :
getlines content = [] -> content = EmptyString.
Proof.
destruct content as [|c r]; [reflexivity|]. cbn [getlines].
destruct (c =? newline)%char; [discriminate|].
destruct (getlines r); discriminate.
Qed.

(** Every line read leaves its line-boundary marker: no token at all
  means that no line was read. *)
Lemma tokenizeLines_nil (lines : list string) :
tokenizeLines lines = [] -> lines = [].
Proof.
destruct lines as [|l ls]; [reflexivity|]. cbn [tokenizeLines].
intros H. apply app_eq_nil in H as [_ H]. discriminate.
Qed.

Lemma tokenizeFile_nil (file : option string) :
fst (tokenizeFile "input.txt" file) = [] <->
file = None \/ file = Some EmptyString.
Proof.
destruct file as [content|]; cbn [tokenizeFile fst].
- split.
  + intros H. right. f_equal.
    apply getlines_nil, tokenizeLines_nil, H.
  + intros [H|H]; [discriminate|]. injection H as ->. reflexivity.
- split; [now left | reflexivity].
Qed.

Lemma main_no_tokens (file : option string) (writable : bool) :
fst (tokenizeFile "input.txt" file) = [] ->
exitStatus (main file writable) = 1%Z
/\ In noTokensMessage (cerr (main file writable)).
Proof.
unfold main. destruct (tokenizeFile "input.txt" file) as [tokens err].
cbn [fst]. intros ->. cbn [exitStatus cerr]. split; [reflexivity|].
apply in_or_app. right. now left.
Qed.

Lemma main_some_tokens (file : option string) (writable : bool) :
fst (tokenizeFile "input.txt" file) <> [] ->
exitStatus (main file writable) = 0%Z
/\ ~ In noTokensMessage (cerr (main file writable)).
Proof.
unfold main. destruct file as [content|]; cbn [tokenizeFile fst];
  [|intros H; now contradiction H].
destruct (tokenizeLines (getlines content)) as [|t ts];
  [intros H; now contradiction H|].
intros _. destruct writable; cbn [exitStatus cerr app];
  (split; [reflexivity|]).
- intros [].
- intros [H|[]]. vm_compute in H. discriminate.
Qed.

Lemma no_input_iff (file : option string) :
file = None \/ fst (tokenizeFile "input.txt" file) = [] <->
fst (tokenizeFile "input.txt" file) = [].
Proof.
split; [|now right]. intros [->|H]; [reflexivity | exact H].
Qed.

End ExitStatus.

(** C9: the program ends with a non-zero status, and writes its
    diagnostic, exactly when the input cannot be opened or tokenization
    yields no token, which for an input that opens is the case of an
    empty file; on every other input it ends with status zero, whatever
    its lines are and whether or not the generated file can be written. *)
Theorem main_exit_status (file : option string) (writable : bool) :
  (exitStatus (main file writable) <> 0%Z <->
   file = None \/ fst (tokenizeFile "input.txt" file) = [])
  /\ (In noTokensMessage (cerr (main file writable)) <->
      file = None \/ fst (tokenizeFile "input.txt" file) = [])
  /\ (exitStatus (main file writable) = 0%Z <->
      ~ (file = None \/ fst (tokenizeFile "input.txt" file) = []))
  /\ (fst (tokenizeFile "input.txt" file) = [] <->
      file = None \/ file = Some EmptyString).
Proof.
  rewrite no_input_iff.
  split; [|split; [|split]]; [| | |apply tokenizeFile_nil].
  - destruct (fst (tokenizeFile "input.txt" file)) eqn:E.
    + destruct (main_no_tokens file writable E) as [-> _].
      split; [reflexivity | discriminate].
    + assert (Hne : fst (tokenizeFile "input.txt" file) <> [])
        by (rewrite E; discriminate).
      destruct (main_some_tokens file writable Hne) as [-> _].
      split; [intros H; now contradiction H | discriminate].
  - destruct (fst (tokenizeFile "input.txt" file)) eqn:E.
    + destruct (main_no_tokens file writable E) as [_ H].
      split; [reflexivity | intros _; exact H].
    + assert (Hne : fst (tokenizeFile "input.txt" file) <> [])
        by (rewrite E; discriminate).
      destruct (main_some_tokens file writable Hne) as [_ H].
      split; [intros Hin; now contradiction H | discriminate].
  - destruct (fst (tokenizeFile "input.txt" file)) eqn:E.
    + destruct (main_no_tokens file writable E) as [-> _].
      split; [discriminate | intros H; now contradiction H].
    + assert (Hne : fst (tokenizeFile "input.txt" file) <> [])
        by (rewrite E; discriminate).
      destruct (main_some_tokens file writable Hne) as [-> _].
      split; [intros _; discriminate | reflexivity].
Qed.

(** * Further properties of the code *)

(** ** Tokenizer: shapes, losslessness, composition *)

Section TokenizerShapes.

(** Induction along the cursor of [tokenizeLine]: the loop goes on at the
    next character, after a literal, or after a word. *)
Lemma line_ind (P : string -> Prop) :
  P EmptyString ->
  (forall ch rest,
      P rest -> P (snd (scanQuoted rest)) -> P (snd (scanWord rest)) ->
      P (String ch rest)) ->
  forall s, P s.
Proof.
  intros Hnil Hstep.
  assert (H : forall n s, String.length s <= n -> P s).
  { induction n as [|n IH]; intros s Hlen.
    - destruct s; simpl in Hlen; [exact Hnil | lia].
    - destruct s as [|ch rest]; [exact Hnil|]. simpl in Hlen.
      pose proof (scanQuoted_length rest). pose proof (scanWord_length rest).
      apply Hstep; apply IH; lia. }
  intros s. apply (H (String.length s)). lia.
Qed.

Lemma isSingleCharToken_other (c : ascii) :
  isSingleCharToken c = true ->
  isWordChar c = false /\ isspace c = false /\ (c =? dquote)%char = false.
Proof.
  unfold isSingleCharToken. intros H.
  repeat (apply orb_true_iff in H as [H|H]);
    apply Ascii.eqb_eq in H; subst c; repeat split.
Qed.

Lemma isspace_not_word (c : ascii) :
  isspace c = true -> isWordChar c = false /\ (c =? dquote)%char = false.
Proof.
  destruct c as [[] [] [] [] [] [] [] []]; vm_compute; intros H;
    try discriminate H; split; reflexivity.
Qed.

Lemma scanQuoted_tail (s : string) : literalTail (fst (scanQuoted s)) = true.
Proof.
  induction s as [|c r IH]; [reflexivity|]. cbn [scanQuoted].
  destruct (c =? dquote)%char eqn:E.
  - cbn. rewrite E. reflexivity.
  - destruct (scanQuoted r) as [lit rest]. cbn [fst literalTail] in *.
    rewrite E. exact IH.
Qed.

Lemma scanWord_word (s : string) : allWordChars (fst (scanWord s)) = true.
Proof.
  induction s as [|c r IH]; [reflexivity|]. cbn [scanWord].
  destruct (isWordChar c) eqn:E; [|reflexivity].
  destruct (scanWord r) as [w rest]. cbn [fst allWordChars] in *.
  rewrite E. exact IH.
Qed.

Lemma tokenShape_not_NL (t : token) :
  tokenShape t = true -> isNewlineToken t = false.
Proof.
  intros H. destruct (isNewlineToken t) eqn:E; [|reflexivity].
  apply isNewlineToken_eq in E. subst t. discriminate H.
Qed.

Lemma tokenizeLine_shapes (s : string) :
  forallb tokenShape (tokenizeLine s) = true.
Proof.
  induction s as [|ch rest IHr IHq IHw] using line_ind; [reflexivity|].
  rewrite tokenizeLine_step.
  destruct (isspace ch) eqn:Esp; [exact IHr|].
  destruct (ch =? dquote)%char eqn:Eq.
  { cbn [forallb tokenShape]. rewrite Eq, scanQuoted_tail. exact IHq. }
  destruct (isSingleCharToken ch) eqn:Es.
  { destruct (isSingleCharToken_other ch Es) as (Hw & _ & _).
    cbn [forallb tokenShape string1]. rewrite Eq, Hw, Esp. exact IHr. }
  destruct (isWordChar ch) eqn:Ew.
  { cbn [forallb tokenShape]. rewrite Eq, Ew, scanWord_word. exact IHw. }
  cbn [forallb tokenShape string1]. rewrite Eq, Ew, Esp. exact IHr.
Qed.

Lemma tokenizeLine_oneLine (s : string) : oneLine (tokenizeLine s) = true.
Proof.
  unfold oneLine. pose proof (tokenizeLine_shapes s) as H.
  induction (tokenizeLine s) as [|t ts IH]; [reflexivity|].
  cbn [forallb] in *. apply andb_true_iff in H as [Ht Hts].
  rewrite (tokenShape_not_NL t Ht). exact (IH Hts).
Qed.

Lemma scanQuoted_text (s : string) :
  (fst (scanQuoted s) ++ dropOuterSpace false (snd (scanQuoted s)))%string =
    dropOuterSpace true s.
Proof.
  induction s as [|c r IH]; [reflexivity|]. cbn [scanQuoted dropOuterSpace].
  destruct (c =? dquote)%char eqn:E; [reflexivity|].
  destruct (scanQuoted r) as [lit rest]. cbn [fst snd negb] in *.
  cbn [String.append]. now rewrite IH.
Qed.

Lemma scanWord_text (s : string) :
  (fst (scanWord s) ++ dropOuterSpace false (snd (scanWord s)))%string =
    dropOuterSpace false s.
Proof.
  induction s as [|c r IH]; [reflexivity|]. cbn [scanWord].
  destruct (isWordChar c) eqn:E; [|reflexivity].
  destruct (scanWord r) as [w rest]. cbn [fst snd] in *.
  cbn [String.append dropOuterSpace].
  destruct (isspace c) eqn:Esp.
  { destruct (isspace_not_word c Esp) as [Hw _]. congruence. }
  rewrite (isWordChar_dquote c E). now rewrite IH.
Qed.

Lemma scanQuoted_unclosed_rest (s : string) :
  hasQuote s = false -> snd (scanQuoted s) = EmptyString.
Proof. intros H. now rewrite (scanQuoted_noquote s H). Qed.

(** A literal that met its closing quote ends with it. *)
Lemma scanQuoted_closed_token (s : string) (c : ascii) :
  hasQuote s = true ->
  (2 <=? String.length (String c (fst (scanQuoted s))))%nat = true
  /\ back (String c (fst (scanQuoted s))) = dquote.
Proof.
  revert c. induction s as [|x r IH]; intros c; [discriminate|].
  cbn [hasQuote scanQuoted].
  destruct (x =? dquote)%char eqn:E.
  - intros _. apply Ascii.eqb_eq in E. subst x. split; reflexivity.
  - cbn [orb]. intros H. destruct (IH x H) as [_ Hb].
    destruct (scanQuoted r) as [lit rest]. cbn [fst] in *.
    split; [reflexivity|]. exact Hb.
Qed.

(** A character that is not a word character ends the word scanned
    before it. *)
Lemma scanWord_before (s x : string) (c : ascii) :
  isWordChar c = false ->
  scanWord (s ++ String c x) =
    (fst (scanWord s), (snd (scanWord s) ++ String c x)%string).
Proof.
  intros Hc. induction s as [|a r IH]; cbn [String.append scanWord].
  - rewrite Hc. reflexivity.
  - destruct (isWordChar a); [|reflexivity].
    rewrite IH. destruct (scanWord r); reflexivity.
Qed.

Lemma scanWord_all (w : string) :
  allWordChars w = true -> scanWord w = (w, EmptyString).
Proof.
  induction w as [|c r IH]; [reflexivity|]. cbn [allWordChars scanWord].
  intros H. apply andb_true_iff in H as [Hc Hr].
  rewrite Hc, (IH Hr). reflexivity.
Qed.

Lemma tokenizeLine_boundary (n : nat) :
  forall (pre rest : string) (c : ascii),
    String.length pre <= n ->
    quotesClosed pre = true ->
    isWordChar c = false ->
    tokenizeLine (pre ++ String c rest) =
      tokenizeLine pre ++ tokenizeLine (String c rest).
Proof.
  induction n as [|n IH]; intros pre rest c Hlen Hq Hc.
  - destruct pre; simpl in Hlen; [reflexivity | lia].
  - destruct pre as [|ch p]; [reflexivity|].
    simpl in Hlen. unfold quotesClosed in *. simpl in Hq.
    change (String ch p ++ String c rest)%string
      with (String ch (p ++ String c rest)).
    rewrite (tokenizeLine_step ch (p ++ String c rest)).
    rewrite (tokenizeLine_step ch p).
    destruct (isspace ch) eqn:Esp.
    { destruct (isspace_not_word ch Esp) as [_ Eq]. rewrite Eq in Hq.
      apply IH; [lia | exact Hq | exact Hc]. }
    destruct (ch =? dquote)%char eqn:Eq.
    { assert (Hh : hasQuote p = true).
      { destruct (hasQuote p) eqn:E; [reflexivity|].
        rewrite (countQuotes_hasQuote _ E) in Hq. discriminate. }
      rewrite (scanQuoted_app p _ Hh). cbn [fst snd].
      rewrite (scanQuoted_count p Hh) in Hq.
      pose proof (scanQuoted_length p) as HL.
      rewrite IH; [reflexivity | lia | | exact Hc].
      simpl in Hq. exact Hq. }
    simpl in Hq.
    destruct (isSingleCharToken ch).
    { rewrite IH; [reflexivity | lia | exact Hq | exact Hc]. }
    destruct (isWordChar ch).
    { rewrite (scanWord_before p rest c Hc). cbn [fst snd].
      pose proof (scanWord_length p) as HL.
      rewrite IH; [reflexivity | lia | | exact Hc].
      unfold quotesClosed. rewrite scanWord_count. exact Hq. }
    rewrite IH; [reflexivity | lia | exact Hq | exact Hc].
Qed.

End TokenizerShapes.

(** X1: a line gives no token exactly when it is white space only. *)
Theorem tokenizeLine_blank (s : string) :
  tokenizeLine s = [] <-> allSpace s = true.
Proof.
  induction s as [|ch rest IH]; [split; reflexivity|].
  rewrite tokenizeLine_step. cbn [allSpace].
  destruct (isspace ch); [exact IH|]. cbn [andb].
  split; [|discriminate].
  destruct (ch =? dquote)%char; [discriminate|].
  destruct (isSingleCharToken ch); [discriminate|].
  destruct (isWordChar ch); discriminate.
Qed.

(** X2: every token of a line is of one of three kinds, a literal led by
    a quote with no other quote before its last character, a run of
    alphanumeric characters and underscores, or a single other character
    that is not white space; no token is empty and none is the
    line-boundary marker. *)
Theorem tokenizeLine_token_shapes (s : string) :
  forallb (fun t => tokenShape t && nonEmpty t && negb (isNewlineToken t))
    (tokenizeLine s) = true.
Proof.
  pose proof (tokenizeLine_shapes s) as H.
  induction (tokenizeLine s) as [|t ts IH]; [reflexivity|].
  cbn [forallb] in *. apply andb_true_iff in H as [Ht Hts].
  rewrite Ht, (tokenShape_not_NL t Ht), (IH Hts).
  destruct t; [discriminate Ht | reflexivity].
Qed.

(** X3: an unterminated string literal can only be the last token of its
    line. *)
Theorem unterminated_literal_is_last
  (s : string) (pre post : list token) (t : token) :
  tokenizeLine s = pre ++ t :: post ->
  unterminatedLiteral t = true ->
  post = [].
Proof.
  revert pre.
  induction s as [|ch rest IHr IHq IHw] using line_ind; intros pre Htok Hun.
  - destruct pre; discriminate Htok.
  - rewrite tokenizeLine_step in Htok.
    assert (Hother : forall x r,
               (ch =? dquote)%char = false ->
               x :: tokenizeLine r = pre ++ t :: post ->
               x = String ch (fst (scanWord rest)) \/ x = string1 ch ->
               (forall pre', tokenizeLine r = pre' ++ t :: post -> post = []) ->
               post = []).
    { intros x r Eq Hx Hshape IH.
      destruct pre as [|y pre']; cbn [app] in Hx; injection Hx as Hy Hr.
      - exfalso. subst t. unfold unterminatedLiteral in Hun.
        destruct Hshape as [-> | ->]; cbn [front string1] in Hun;
          rewrite Eq in Hun; discriminate.
      - exact (IH pre' Hr). }
    destruct (isspace ch); [exact (IHr pre Htok Hun)|].
    destruct (ch =? dquote)%char eqn:Eq.
    { destruct pre as [|y pre']; cbn [app] in Htok; injection Htok as Hy Hr.
      - destruct (hasQuote rest) eqn:Eh.
        + exfalso. subst t. destruct (scanQuoted_closed_token rest ch Eh) as [H1 H2].
          unfold unterminatedLiteral in Hun. rewrite H1, H2 in Hun.
          cbn in Hun. rewrite andb_false_r in Hun. discriminate.
        + rewrite (scanQuoted_unclosed_rest rest Eh) in Hr.
          symmetry. exact Hr.
      - exact (IHq pre' Hr Hun). }
    destruct (isSingleCharToken ch).
    { apply (Hother _ _ eq_refl Htok); [now right | intros p h; exact (IHr p h Hun)]. }
    destruct (isWordChar ch).
    { apply (Hother _ _ eq_refl Htok); [now left | intros p h; exact (IHw p h Hun)]. }
    apply (Hother _ _ eq_refl Htok); [now right | intros p h; exact (IHr p h Hun)].
Qed.

Lemma unterminated_literal_is_last_witness :
  tokenizeLine ("dekhao(x, " ++ String dquote "abc, y)") =
    ["dekhao"; "("; "x"; ","] ++ String dquote "abc, y)" :: []
  /\ unterminatedLiteral (String dquote "abc, y)") = true
  /\ @nil token = [].
Proof.
  split; [reflexivity|]. split; [reflexivity|].
  exact (unterminated_literal_is_last
           ("dekhao(x, " ++ String dquote "abc, y)")
           ["dekhao"; "("; "x"; ","] [] (String dquote "abc, y)")
           eq_refl eq_refl).
Defined.

(** X4: tokenizing loses nothing but the white space outside string
    literals: the tokens of a line, written one after the other, are the
    line without that white space. *)
Theorem tokenizeLine_lossless (s : string) :
  writeAll (tokenizeLine s) = dropOuterSpace false s.
Proof.
  induction s as [|ch rest IHr IHq IHw] using line_ind; [reflexivity|].
  rewrite tokenizeLine_step. cbn [dropOuterSpace].
  destruct (isspace ch) eqn:Esp; [exact IHr|].
  destruct (ch =? dquote)%char eqn:Eq.
  { cbn [writeAll String.append]. rewrite IHq, scanQuoted_text. reflexivity. }
  destruct (isSingleCharToken ch).
  { cbn [writeAll string1 String.append]. now rewrite IHr. }
  destruct (isWordChar ch).
  { cbn [writeAll String.append]. rewrite IHw, scanWord_text. reflexivity. }
  cbn [writeAll string1 String.append]. now rewrite IHr.
Qed.

(** X5: a character that is not alphanumeric or underscore, met outside
    a string literal, is a token boundary: the tokens of the line are the
    tokens of the text before it followed by the tokens of the text from
    it on.  In particular white space separates. *)
Theorem tokenizeLine_splits_at_boundary (pre rest : string) (c : ascii) :
  quotesClosed pre = true ->
  isWordChar c = false ->
  tokenizeLine (pre ++ String c rest) =
    tokenizeLine pre ++ tokenizeLine (String c rest).
Proof.
  intros Hq Hc.
  apply (tokenizeLine_boundary (String.length pre)); auto.
Qed.

Lemma tokenizeLine_splits_at_boundary_witness :
  quotesClosed "integer count" = true
  /\ isWordChar " " = false
  /\ tokenizeLine ("integer count" ++ String " " "te 5+2") =
       ["integer"; "count"] ++ ["te"; "5"; "+"; "2"].
Proof.
  split; [reflexivity|]. split; [reflexivity|].
  exact (tokenizeLine_splits_at_boundary "integer count" "te 5+2" " "
           eq_refl eq_refl).
Defined.

Lemma isWordChar_plain (c : ascii) :
  isWordChar c = true ->
  isspace c = false /\ (c =? dquote)%char = false
  /\ isSingleCharToken c = false.
Proof.
  intros H. split; [|split].
  - destruct (isspace c) eqn:E; [|reflexivity].
    destruct (isspace_not_word c E). congruence.
  - exact (isWordChar_dquote c H).
  - destruct (isSingleCharToken c) eqn:E; [|reflexivity].
    destruct (isSingleCharToken_other c E). congruence.
Qed.

(** X6: a run of alphanumeric characters and underscores is one token,
    whatever its length: alone on the line it is the only token, and
    before a character of another kind it is the first token, whole. *)
Theorem tokenizeLine_word (w rest : string) (c : ascii) :
  nonEmpty w = true ->
  allWordChars w = true ->
  isWordChar c = false ->
  tokenizeLine w = [w]
  /\ tokenizeLine (w ++ String c rest) = w :: tokenizeLine (String c rest).
Proof.
  intros Hne Hw Hc. destruct w as [|a r]; [discriminate|].
  cbn [allWordChars] in Hw. apply andb_true_iff in Hw as [Ha Hr].
  destruct (isWordChar_plain a Ha) as (Hsp & Hq & Hs).
  split.
  - rewrite tokenizeLine_step, Hsp, Hq, Hs, Ha.
    rewrite (scanWord_all r Hr). reflexivity.
  - change (String a r ++ String c rest)%string
      with (String a (r ++ String c rest)).
    rewrite tokenizeLine_step, Hsp, Hq, Hs, Ha.
    rewrite (scanWord_before r rest c Hc), (scanWord_all r Hr).
    reflexivity.
Qed.

Lemma tokenizeLine_word_witness :
  nonEmpty "total_2" = true
  /\ allWordChars "total_2" = true
  /\ isWordChar "/" = false
  /\ tokenizeLine "total_2" = ["total_2"]
  /\ tokenizeLine ("total_2" ++ String "/" "count") =
       "total_2" :: ["/"; "count"].
Proof.
  split; [reflexivity|]. split; [reflexivity|]. split; [reflexivity|].
  exact (tokenizeLine_word "total_2" "count" "/" eq_refl eq_refl eq_refl).
Defined.

Section LineMarkers.

Lemma countNL_app (a b : list token) :
  countNL (a ++ b) = countNL a + countNL b.
Proof. unfold countNL. now rewrite filter_app, length_app. Qed.

Lemma countNL_oneLine (toks : list token) :
  oneLine toks = true -> countNL toks = 0.
Proof.
  unfold oneLine, countNL. induction toks as [|t r IH]; [reflexivity|].
  cbn [forallb filter]. intros H. apply andb_true_iff in H as [Ht Hr].
  apply negb_true_iff in Ht. rewrite Ht. exact (IH Hr).
Qed.

Lemma terminated_app_NL (a b : list token) :
  terminated b = true -> terminated (a ++ NL :: b) = true.
Proof.
  intros Hb. induction a as [|x a IH]; cbn [app].
  - cbn [terminated]. destruct b; [reflexivity | exact Hb].
  - cbn [terminated]. destruct (a ++ NL :: b) eqn:E; [|exact IH].
    destruct a; discriminate E.
Qed.

End LineMarkers.

(** X7: the token sequence of a file holds exactly one line-boundary
    marker per line read, and is empty or ends with a marker. *)
Theorem tokenizeLines_markers (lines : list string) :
  countNL (tokenizeLines lines) = List.length lines
  /\ terminated (tokenizeLines lines) = true.
Proof.
  induction lines as [|l ls [IHc IHt]]; [split; reflexivity|].
  cbn [tokenizeLines List.length]. split.
  - rewrite countNL_app, (countNL_oneLine _ (tokenizeLine_oneLine l)).
    change (NL :: tokenizeLines ls) with ([NL] ++ tokenizeLines ls).
    rewrite countNL_app, IHc. reflexivity.
  - apply terminated_app_NL, IHt.
Qed.

(** ** Argument Splitter: trimming, arguments, cursor *)

Section Trimming.

Lemma trimLeft_split (s : string) :
  exists a, s = (a ++ trimLeft s)%string /\ allSpace a = true.
Proof.
  induction s as [|c r (a & Hs & Ha)]; [now exists EmptyString|].
  cbn [trimLeft]. destruct (isspace c) eqn:E.
  - exists (String c a). cbn [String.append allSpace]. rewrite E, Ha.
    split; [now rewrite <- Hs | reflexivity].
  - now exists EmptyString.
Qed.

Lemma trimLeft_front (s : string) : isspace (front (trimLeft s)) = false.
Proof.
  induction s as [|c r IH]; [reflexivity|]. cbn [trimLeft].
  destruct (isspace c) eqn:E; [exact IH | exact E].
Qed.

Lemma trimLeft_id (s : string) :
  isspace (front s) = false -> trimLeft s = s.
Proof. destruct s as [|c r]; [reflexivity|]. cbn. now intros ->. Qed.

Lemma trimRight_split (s : string) :
  exists b, s = (trimRight s ++ b)%string /\ allSpace b = true.
Proof.
  induction s as [|c r (b & Hs & Hb)]; [now exists EmptyString|].
  cbn [trimRight]. destruct (trimRight r) as [|x y] eqn:E.
  - cbn [String.append] in Hs. subst r. destruct (isspace c) eqn:Ec.
    + exists (String c b). cbn [String.append allSpace]. now rewrite Ec, Hb.
    + now exists b.
  - exists b. cbn [String.append] in *. now rewrite <- Hs.
Qed.

Lemma trimRight_back (s : string) : isspace (back (trimRight s)) = false.
Proof.
  induction s as [|c r IH]; [reflexivity|]. cbn [trimRight].
  destruct (trimRight r) as [|x y] eqn:E.
  - destruct (isspace c) eqn:Ec; [reflexivity | exact Ec].
  - exact IH.
Qed.

Lemma trimRight_front (s : string) :
  isspace (front s) = false -> front (trimRight s) = front s.
Proof.
  destruct s as [|c r]; [reflexivity|]. cbn [front trimRight]. intros Ec.
  destruct (trimRight r); [now rewrite Ec | reflexivity].
Qed.

Lemma trimRight_idem (s : string) : trimRight (trimRight s) = trimRight s.
Proof.
  induction s as [|c r IH]; [reflexivity|]. cbn [trimRight].
  destruct (trimRight r) as [|x y] eqn:E.
  - destruct (isspace c) eqn:Ec; [reflexivity|]. cbn. now rewrite Ec.
  - cbn [trimRight] in *. rewrite IH. reflexivity.
Qed.

Lemma trim_trimmed (s : string) : trimmed (trim s) = true.
Proof.
  unfold trimmed, trim.
  rewrite (trimRight_front _ (trimLeft_front s)), trimLeft_front.
  now rewrite trimRight_back.
Qed.

Lemma trim_idem (s : string) : trim (trim s) = trim s.
Proof.
  unfold trim at 1. rewrite trimLeft_id.
  - unfold trim. apply trimRight_idem.
  - pose proof (trim_trimmed s) as H. unfold trimmed in H.
    apply andb_true_iff in H as [H _]. now apply negb_true_iff in H.
Qed.

End Trimming.

(** X8: trimming erases white space at both ends and nothing else: the
    text is its trimmed form between two runs of white space, the trimmed
    form neither starts nor ends with white space, and trimming it again
    changes nothing. *)
Theorem trim_spec (s : string) :
  (exists a b,
      s = (a ++ trim s ++ b)%string
      /\ allSpace a = true /\ allSpace b = true)
  /\ trimmed (trim s) = true
  /\ trim (trim s) = trim s.
Proof.
  split; [|split; [apply trim_trimmed | apply trim_idem]].
  destruct (trimLeft_split s) as (a & Hs & Ha).
  destruct (trimRight_split (trimLeft s)) as (b & Hr & Hb).
  exists a, b. unfold trim. rewrite <- Hr. auto.
Qed.

Section SplitterResults.

Lemma flushArg_clean (cur : string) (args : list string) :
  forallb (fun a => nonEmpty a && trimmed a) args = true ->
  forallb (fun a => nonEmpty a && trimmed a) (flushArg cur args) = true.
Proof.
  intros H. unfold flushArg. pose proof (trim_trimmed cur) as Ht.
  destruct (trim cur) as [|c r]; [exact H|].
  rewrite forallb_app, H. cbn [forallb nonEmpty andb]. now rewrite Ht.
Qed.

Lemma splitArgsLoop_clean (tok : list token) :
  forall depth cur args,
    forallb (fun a => nonEmpty a && trimmed a) args = true ->
    forallb (fun a => nonEmpty a && trimmed a)
      (fst (splitArgsLoop tok depth cur args)) = true.
Proof.
  induction tok as [|t rest IH]; intros depth cur args H;
    cbn [splitArgsLoop]; [exact H|].
  destruct (t =? "(")%string; [now apply IH|].
  destruct (t =? ")")%string.
  { destruct depth; [now apply flushArg_clean | now apply IH]. }
  destruct ((t =? ",")%string && (depth =? 0)%nat);
    [now apply IH, flushArg_clean|].
  destruct (negb (isNewlineToken t)); now apply IH.
Qed.

(** The lookahead of the splitter before the closing parenthesis does
    not see what follows it. *)
Lemma lookahead_closing (t : token) (toks tail : list token) :
  match toks ++ ")" :: tail with
  | nxt :: _ => argNeedSpace t nxt
  | [] => false
  end =
  match toks ++ [")"] with
  | nxt :: _ => argNeedSpace t nxt
  | [] => false
  end.
Proof. destruct toks; reflexivity. Qed.

Lemma splitArgsLoop_closing (toks tail : list token) :
  forall depth cur args,
    depthAfter toks depth = Some 0 ->
    splitArgsLoop (toks ++ ")" :: tail) depth cur args =
      (fst (splitArgsLoop (toks ++ [")"]) depth cur args), tail).
Proof.
  induction toks as [|t toks IH]; intros depth cur args Hd.
  - cbn in Hd. injection Hd as ->. reflexivity.
  - cbn [depthAfter] in Hd. cbn [app splitArgsLoop].
    destruct (t =? "(")%string; [now apply IH|].
    destruct (t =? ")")%string.
    { destruct depth; [discriminate | now apply IH]. }
    destruct ((t =? ",")%string && (depth =? 0)%nat); [now apply IH|].
    rewrite (lookahead_closing t toks tail).
    destruct (negb (isNewlineToken t)); now apply IH.
Qed.

End SplitterResults.

(** X9: whatever the tokens, every argument the Argument Splitter returns
    is non-empty and neither starts nor ends with white space. *)
Theorem splitArgs_arguments_clean (tok : list token) :
  forallb (fun a => nonEmpty a && trimmed a) (fst (splitArgs tok)) = true.
Proof. apply splitArgsLoop_clean. reflexivity. Qed.

(** X10: when the argument list is closed, on its line or on a later
    one, the Argument Splitter stops just after the closing parenthesis
    that matches, and the arguments it returns do not depend on the
    tokens after that parenthesis. *)
Theorem splitArgs_stops_at_closing (toks tail : list token) :
  depthAfter toks 0 = Some 0 ->
  splitArgs (toks ++ ")" :: tail) = (fst (splitArgs (toks ++ [")"])), tail).
Proof. intros H. now apply splitArgsLoop_closing. Qed.

Lemma splitArgs_stops_at_closing_witness :
  depthAfter ["f"; "("; "a"; ","; NL; "b"; ")"; ","; NL; "c"] 0 = Some 0
  /\ splitArgs (["f"; "("; "a"; ","; NL; "b"; ")"; ","; NL; "c"]
                ++ ")" :: ["x"; NL; "integer"]) =
       (["f(a,b)"; "c"], ["x"; NL; "integer"]).
Proof.
  split; [reflexivity|].
  exact (splitArgs_stops_at_closing
           ["f"; "("; "a"; ","; NL; "b"; ")"; ","; NL; "c"]
           ["x"; NL; "integer"] eq_refl).
Defined.

(** ** Expression Reader: cursor *)

Section ReaderCursor.

Lemma readExprLoop_cursor (tok : list token) :
  forall oss, snd (readExprLoop tok oss) = skipToEOL tok.
Proof.
  induction tok as [|t rest IH]; intros oss; [reflexivity|].
  cbn [readExprLoop skipToEOL].
  destruct (isNewlineToken t); [reflexivity|].
  destruct (t =? "te")%string; apply IH.
Qed.

Lemma readExprLoop_line (line rest : list token) :
  oneLine line = true ->
  forall oss,
    fst (readExprLoop (line ++ NL :: rest) oss) = fst (readExprLoop line oss).
Proof.
  induction line as [|t line IH]; intros Hline oss; [reflexivity|].
  cbn [oneLine forallb] in Hline. apply andb_true_iff in Hline as [Ht Hl].
  apply negb_true_iff in Ht.
  cbn [app readExprLoop]. rewrite Ht.
  destruct (t =? "te")%string; [now apply IH|].
  rewrite (IH Hl). do 3 f_equal.
  destruct line; [|reflexivity].
  cbn [app]. unfold exprNeedSpace. now rewrite isNewlineToken_NL.
Qed.

End ReaderCursor.

(** X11: the Expression Reader stops at the first line-boundary marker,
    or at the end of the tokens when there is none, without consuming the
    marker; and the text it returns for a line does not depend on what
    follows the marker: it is the text of the line read alone. *)
Theorem readExprUntilEOL_stops_at_boundary (line rest : list token) :
  oneLine line = true ->
  readExprUntilEOL (line ++ NL :: rest) =
    (fst (readExprUntilEOL line), NL :: rest)
  /\ (forall tok : list token, snd (readExprUntilEOL tok) = skipToEOL tok).
Proof.
  intros Hline. split.
  - unfold readExprUntilEOL.
    rewrite (surjective_pairing (readExprLoop (line ++ NL :: rest) EmptyString)).
    rewrite (readExprLoop_line line rest Hline), readExprLoop_cursor.
    now rewrite (skipToEOL_line line rest Hline).
  - intros tok. apply readExprLoop_cursor.
Qed.

Lemma readExprUntilEOL_stops_at_boundary_witness :
  oneLine ["a"; "te"; "+"; "b"; "c"] = true
  /\ readExprUntilEOL (["a"; "te"; "+"; "b"; "c"] ++ NL :: ["dekhao"; "("; ")"]) =
       ("a +b c", NL :: ["dekhao"; "("; ")"]).
Proof.
  split; [reflexivity|].
  exact (proj1 (readExprUntilEOL_stops_at_boundary
                  ["a"; "te"; "+"; "b"; "c"] ["dekhao"; "("; ")"] eq_refl)).
Defined.

(** ** Statements: forms of the generated lines, one line per source line *)

Section GeneratedLines.

Lemma back_app (a b : string) :
  nonEmpty b = true ->
  back (a ++ b) = back b /\ nonEmpty (a ++ b) = true.
Proof.
  intros Hb. induction a as [|c a [IH1 IH2]]; [now split|].
  cbn [String.append]. split; [|reflexivity].
  cbn [back]. destruct (a ++ b)%string; [discriminate IH2 | exact IH1].
Qed.

Lemma prefix_app (p x : string) : String.prefix p (p ++ x) = true.
Proof.
  induction p as [|c p IH]; cbn [String.append String.prefix].
  - now destruct x.
  - destruct (ascii_dec c c) as [_|H]; [exact IH | now contradiction H].
Qed.

Lemma printLine_codeLine (args : list string) :
  codeLine (printLine args) = true.
Proof.
  unfold codeLine, printLine. apply andb_true_iff. split.
  - now rewrite prefix_app.
  - destruct (back_app (writeAll (map (fun a => " << " ++ a)%string args))
                " << std::endl;" eq_refl) as [H1 H2].
    destruct (back_app "std::cout" _ H2) as [H3 _].
    rewrite H3, H1. reflexivity.
Qed.

Lemma declLine_codeLine (tkw id expr : string) :
  isTypeKeyword tkw = true -> codeLine (declLine tkw id expr) = true.
Proof.
  intros Hk. unfold codeLine, declLine. apply andb_true_iff. split.
  - destruct (isTypeKeyword_cases tkw Hk) as [->|[->| ->]].
    + pose proof (prefix_app "int " (id ++ " = " ++ expr ++ ";")) as H.
      cbn [String.append] in H |- *. cbn [cppType String.eqb Ascii.eqb Bool.eqb andb].
      cbn [String.append]. now rewrite H, orb_true_r.
    + pose proof (prefix_app "float " (id ++ " = " ++ expr ++ ";")) as H.
      cbn [String.append] in H |- *. cbn [cppType String.eqb Ascii.eqb Bool.eqb andb].
      cbn [String.append]. now rewrite H, orb_true_r.
    + pose proof (prefix_app "std::string " (id ++ " = " ++ expr ++ ";")) as H.
      cbn [String.append] in H |- *. cbn [cppType String.eqb Ascii.eqb Bool.eqb andb].
      cbn [String.append]. now rewrite H, orb_true_r.
  - destruct (back_app expr ";" eq_refl) as [H1 H2].
    destruct (back_app " = " _ H2) as [H3 H4].
    destruct (back_app id _ H4) as [H5 H6].
    destruct (back_app " " _ H6) as [H7 H8].
    destruct (back_app (cppType tkw) _ H8) as [H9 _].
    rewrite H9, H7, H5, H3, H1. reflexivity.
Qed.

Lemma statement_codeLines (tok : list token) (st : State) :
  forallb codeLine (body st) = true ->
  forallb codeLine (body (snd (statement tok st))) = true.
Proof.
  intros H.
  destruct (statement_cases tok st) as [-> | [[args ->] | (tkw & id & e & Hk & ->)]];
    cbn [body pushLine]; [exact H| |]; rewrite forallb_app, H; cbn [forallb andb].
  - now rewrite printLine_codeLine.
  - now rewrite (declLine_codeLine tkw id e Hk).
Qed.

Lemma statement_body_length (tok : list token) (st : State) :
  List.length (body (snd (statement tok st))) <= S (List.length (body st)).
Proof.
  destruct (statement_cases tok st) as [-> | [[args ->] | (tkw & id & e & Hk & ->)]];
    cbn [body pushLine]; rewrite ?length_app; cbn [List.length]; lia.
Qed.

Lemma skipToEOL_boundary (tok : list token) : atBoundary (skipToEOL tok) = true.
Proof.
  induction tok as [|t r IH]; [reflexivity|]. cbn [skipToEOL].
  destruct (isNewlineToken t) eqn:E; [exact E | exact IH].
Qed.

Lemma skipToEOL_suffix (tok : list token) :
  exists pre, tok = pre ++ skipToEOL tok.
Proof.
  induction tok as [|t r [pre IH]]; [now exists []|]. cbn [skipToEOL].
  destruct (isNewlineToken t); [now exists []|].
  exists (t :: pre). cbn [app]. now rewrite <- IH.
Qed.

Lemma skipNewlines_suffix (tok : list token) :
  exists pre, tok = pre ++ skipNewlines tok.
Proof.
  induction tok as [|t r [pre IH]]; [now exists []|]. cbn [skipNewlines].
  destruct (isNewlineToken t); [|now exists []].
  exists (t :: pre). cbn [app]. now rewrite <- IH.
Qed.

Lemma splitArgsLoop_suffix (tok : list token) :
  forall depth cur args,
    exists pre, tok = pre ++ snd (splitArgsLoop tok depth cur args).
Proof.
  induction tok as [|t rest IH]; intros depth cur args; [now exists []|].
  assert (Hrec : forall d c a,
             exists pre, t :: rest = pre ++ snd (splitArgsLoop rest d c a)).
  { intros d c a. destruct (IH d c a) as [pre Hp].
    exists (t :: pre). cbn [app]. now rewrite <- Hp. }
  cbn [splitArgsLoop].
  destruct (t =? "(")%string; [apply Hrec|].
  destruct (t =? ")")%string.
  { destruct depth; [now exists [t] | apply Hrec]. }
  destruct ((t =? ",")%string && (depth =? 0)%nat); [apply Hrec|].
  destruct (negb (isNewlineToken t)); apply Hrec.
Qed.

(** Where the dispatch leaves the cursor: further on in the same token
    sequence, at a line-boundary marker or at the end. *)
Lemma statement_stops (t : token) (r : list token) (st : State) :
  isNewlineToken t = false ->
  atBoundary (fst (statement (t :: r) st)) = true
  /\ exists pre, t :: r = pre ++ fst (statement (t :: r) st).
Proof.
  intros Hnl. unfold statement.
  destruct (t =? "dekhao")%string.
  { destruct r as [|p r']; [split; [reflexivity | now exists [t]]|].
    destruct (p =? "(")%string.
    - unfold splitArgs.
      destruct (splitArgsLoop_suffix r' 0 EmptyString []) as [pre Hp].
      destruct (splitArgsLoop r' 0 EmptyString []) as [args r2].
      cbn [fst snd] in *. split; [apply skipToEOL_boundary|].
      destruct (skipToEOL_suffix r2) as [pre2 Hp2].
      exists (t :: p :: pre ++ pre2). cbn [app].
      now rewrite <- app_assoc, <- Hp2, <- Hp.
    - cbn [fst]. split; [apply skipToEOL_boundary|].
      destruct (skipToEOL_suffix (p :: r')) as [pre Hp].
      exists (t :: pre). cbn [app]. now rewrite <- Hp. }
  destruct ((3 <? List.length (t :: r))%nat && isTypeKeyword t).
  { assert (Hrd : forall id r2 pre0,
               t :: r = pre0 ++ r2 ->
               atBoundary (fst (let (expr, r3) := readExprUntilEOL r2 in
                                (r3,
                                 mkState (body st ++ [declLine t id expr])
                                   (if (t =? "string")%string then true
                                    else usesString st)
                                   (if (t =? "float")%string then true
                                    else usesFloat st)))) = true
               /\ exists pre,
                   t :: r =
                     pre ++ fst (let (expr, r3) := readExprUntilEOL r2 in
                                 (r3,
                                  mkState (body st ++ [declLine t id expr])
                                    (if (t =? "string")%string then true
                                     else usesString st)
                                    (if (t =? "float")%string then true
                                     else usesFloat st)))).
    { intros id r2 pre0 Hp0. unfold readExprUntilEOL.
      pose proof (readExprLoop_cursor r2 EmptyString) as Hc.
      destruct (readExprLoop r2 EmptyString) as [expr r3].
      cbn [fst snd] in *. subst r3. split; [apply skipToEOL_boundary|].
      destruct (skipToEOL_suffix r2) as [pre2 Hp2].
      exists (pre0 ++ pre2). now rewrite <- app_assoc, <- Hp2. }
    destruct r as [|x r1]; [apply (Hrd _ _ [t]); reflexivity|].
    destruct r1 as [|m r1']; [apply (Hrd _ _ [t; x]); reflexivity|].
    cbn [tl]. destruct (m =? "te")%string.
    - apply (Hrd _ _ [t; x; m]); reflexivity.
    - apply (Hrd _ _ [t; x]); reflexivity. }
  cbn [fst]. split; [apply skipToEOL_boundary|]. apply skipToEOL_suffix.
Qed.

Lemma countNL_suffix (pre x : list token) : countNL x <= countNL (pre ++ x).
Proof. rewrite countNL_app. lia. Qed.

Lemma terminated_suffix (pre x : list token) :
  terminated (pre ++ x) = true -> terminated x = true.
Proof.
  induction pre as [|a pre IH]; [auto|]. cbn [app terminated].
  destruct (pre ++ x) eqn:E; [|exact IH].
  intros _. destruct pre; [|discriminate E]. cbn in E. now subst x.
Qed.

Lemma terminated_countNL (t : token) (r : list token) :
  terminated (t :: r) = true -> 1 <= countNL (t :: r).
Proof.
  revert t. induction r as [|x r IH]; intros t; cbn [terminated].
  - intros H. unfold countNL. cbn [filter]. rewrite H. cbn. lia.
  - intros H. specialize (IH x H).
    change (t :: x :: r) with ([t] ++ x :: r).
    pose proof (countNL_suffix [t] (x :: r)). lia.
Qed.

Lemma countNL_cons_NL (r : list token) : countNL (NL :: r) = S (countNL r).
Proof. reflexivity. Qed.

(** On a token sequence that ends with a marker, a run adds at most one
    line per marker. *)
Lemma run_body_bound (n : nat) :
  forall tok st,
    List.length tok <= n ->
    terminated tok = true ->
    List.length (body (run tok st)) <= List.length (body st) + countNL tok.
Proof.
  induction n as [|n IH]; intros tok st Hlen Hterm.
  - destruct tok; [cbn; lia | simpl in Hlen; lia].
  - rewrite run_step.
    destruct (skipNewlines_suffix tok) as [pre0 Hp0].
    pose proof (skipNewlines_length tok) as HL0.
    destruct (skipNewlines tok) as [|t r] eqn:E; [lia|]. cbv zeta.
    pose proof (skipNewlines_head _ _ _ E) as Hnl.
    assert (Ht1 : terminated (t :: r) = true)
      by (apply (terminated_suffix pre0); now rewrite <- Hp0).
    assert (Hc1 : countNL (t :: r) <= countNL tok)
      by (rewrite Hp0; apply countNL_suffix).
    destruct (statement_stops t r st Hnl) as [Hb [pre Hp]].
    pose proof (statement_length t r st Hnl) as HL.
    pose proof (statement_body_length (t :: r) st) as HB.
    destruct (statement (t :: r) st) as [tok2 st']. cbn [fst snd] in *.
    destruct (skipNewlines_suffix tok2) as [pre2 Hp2].
    pose proof (skipNewlines_length tok2) as HL2.
    assert (Ht2 : terminated tok2 = true)
      by (apply (terminated_suffix pre); now rewrite <- Hp).
    assert (Ht3 : terminated (skipNewlines tok2) = true)
      by (apply (terminated_suffix pre2); now rewrite <- Hp2).
    assert (Hc2 : countNL tok2 <= countNL (t :: r))
      by (rewrite Hp; apply countNL_suffix).
    specialize (IH (skipNewlines tok2) st').
    cbn [List.length] in *.
    assert (Hc3 : S (countNL (skipNewlines tok2)) <= countNL (t :: r)).
    { destruct tok2 as [|x r2].
      - cbn [skipNewlines]. pose proof (terminated_countNL t r Ht1).
        change (countNL []) with 0. lia.
      - cbn [atBoundary] in Hb. apply isNewlineToken_eq in Hb. subst x.
        cbn [skipNewlines]. rewrite isNewlineToken_NL.
        rewrite countNL_cons_NL in Hc2.
        destruct (skipNewlines_suffix r2) as [pre3 Hp3].
        pose proof (countNL_suffix pre3 (skipNewlines r2)) as Hc4.
        rewrite <- Hp3 in Hc4. lia. }
    assert (Hlen2 : List.length (skipNewlines tok2) <= n) by lia.
    specialize (IH Hlen2 Ht3). lia.
Qed.

End GeneratedLines.

(** X12: every line of the generated body is an output statement or a
    declaration of one of the three target types: it starts with
    [std::cout], [int ], [float ] or [std::string ] and ends with a
    semicolon.  No blank line and no other text is ever collected. *)
Theorem body_lines_are_statements (tok : list token) :
  forallb codeLine (body (transpileState tok)) = true.
Proof.
  unfold transpileState, run.
  apply (transpileLoop_invariant (fun s => forallb codeLine (body s) = true));
    [intros; now apply statement_codeLines | reflexivity].
Qed.

(** X13: the generated body never has more lines than the source: for
    the token sequence of a file, at most one statement line per line
    read; for any token sequence that ends with a line-boundary marker,
    at most one per marker. *)
Theorem at_most_one_statement_per_line (lines : list string) :
  List.length (body (transpileState (tokenizeLines lines))) <= List.length lines
  /\ (forall tok : list token,
        terminated tok = true ->
        List.length (body (transpileState tok)) <= countNL tok).
Proof.
  assert (H : forall tok : list token,
             terminated tok = true ->
             List.length (body (transpileState tok)) <= countNL tok).
  { intros tok Ht. unfold transpileState.
    apply (run_body_bound (List.length tok) tok initState (le_n _) Ht). }
  split; [|exact H].
  assert (Hc : countNL (tokenizeLines lines) = List.length lines
               /\ terminated (tokenizeLines lines) = true).
  { induction lines as [|l ls [IHc IHt]]; [split; reflexivity|].
    cbn [tokenizeLines List.length]. split.
    - rewrite countNL_app, (countNL_oneLine _ (tokenizeLine_oneLine l)).
      change (NL :: tokenizeLines ls) with ([NL] ++ tokenizeLines ls).
      rewrite countNL_app, IHc. reflexivity.
    - apply terminated_app_NL, IHt. }
  destruct Hc as [Hc Ht]. rewrite <- Hc. apply H, Ht.
Qed.

Lemma at_most_one_statement_per_line_witness :
  terminated ["dekhao"; "("; "x"; NL; "y"; ")"; NL; "integer"; "n"; "te"; "1"; NL] = true
  /\ List.length
       (body (transpileState
                ["dekhao"; "("; "x"; NL; "y"; ")"; NL; "integer"; "n"; "te"; "1"; NL]))
     <= 3.
Proof.
  split; [reflexivity|].
  exact (proj2 (at_most_one_statement_per_line [])
           ["dekhao"; "("; "x"; NL; "y"; ")"; NL; "integer"; "n"; "te"; "1"; NL]
           eq_refl).
Defined.

Section FloatFlag.

Lemma declLine_float_print (id expr : string) (args : list string) :
  declLine "float" id expr <> printLine args.
Proof. unfold declLine, printLine. cbn. discriminate. Qed.

Lemma declLine_float_other (tkw id expr id' expr' : string) :
  isTypeKeyword tkw = true ->
  (tkw =? "float")%string = false ->
  declLine "float" id expr <> declLine tkw id' expr'.
Proof.
  intros Hk Hs.
  destruct (isTypeKeyword_cases tkw Hk) as [->|[->| ->]];
    unfold declLine; cbn; discriminate.
Qed.

Lemma statement_floatFlagInv (tok : list token) (st : State) :
  floatFlagInv st -> floatFlagInv (snd (statement tok st)).
Proof.
  unfold floatFlagInv. intros [H1 H2].
  destruct (statement_cases tok st) as [-> | [[args ->] | (tkw & id & e & Hk & ->)]];
    cbn [usesFloat body pushLine].
  - split; assumption.
  - split.
    + intros H. destruct (H1 H) as (i & x & Hin).
      exists i, x. apply in_or_app. now left.
    + intros (i & x & Hin). apply H2.
      apply in_app_or in Hin as [Hin | [Hin | []]]; [now exists i, x|].
      symmetry in Hin. now apply declLine_float_print in Hin.
  - destruct (tkw =? "float")%string eqn:Es.
    + apply String.eqb_eq in Es. subst tkw. split; [|reflexivity].
      intros _. exists id, e. apply in_or_app. right. now left.
    + split.
      * intros H. destruct (H1 H) as (i & x & Hin).
        exists i, x. apply in_or_app. now left.
      * intros (i & x & Hin). apply H2.
        apply in_app_or in Hin as [Hin | [Hin | []]]; [now exists i, x|].
        symmetry in Hin. now apply declLine_float_other in Hin.
Qed.

End FloatFlag.

(** X14: when the loop ends the float flag is true exactly when the body
    holds a declaration line of the [float] type keyword; and the
    generated text is the same whatever the flag is: only the body and
    the string flag are read. *)
Theorem float_flag_tracks_declarations (tok : list token) :
  (usesFloat (transpileState tok) = true <->
   exists id expr, In (declLine "float" id expr) (body (transpileState tok)))
  /\ (forall b s f f', assemble (mkState b s f) = assemble (mkState b s f')).
Proof.
  split; [|reflexivity].
  unfold transpileState, run.
  apply (transpileLoop_invariant floatFlagInv);
    [intros; now apply statement_floatFlagInv|].
  split; [discriminate | intros (i & x & [])].
Qed.

Section BlankInput.

Lemma tokenizeLine_allSpace (s : string) :
  allSpace s = true -> tokenizeLine s = [].
Proof.
  induction s as [|ch rest IH]; [reflexivity|].
  cbn [allSpace]. intros H. apply andb_true_iff in H as [Hc Hr].
  rewrite tokenizeLine_step, Hc. exact (IH Hr).
Qed.

Lemma run_blank_lines (lines : list string) (st : State) :
  forallb allSpace lines = true -> run (tokenizeLines lines) st = st.
Proof.
  induction lines as [|l ls IH]; [reflexivity|].
  cbn [forallb tokenizeLines]. intros H.
  apply andb_true_iff in H as [Hl Hls].
  rewrite (tokenizeLine_allSpace l Hl). cbn [app].
  rewrite run_NL. exact (IH Hls).
Qed.

Lemma getlines_allSpace (content : string) :
  allSpace content = true -> forallb allSpace (getlines content) = true.
Proof.
  induction content as [|c r IH]; [reflexivity|].
  cbn [allSpace getlines]. intros H. apply andb_true_iff in H as [Hc Hr].
  specialize (IH Hr).
  destruct (c =? newline)%char; [exact IH|].
  destruct (getlines r) as [|l ls]; cbn [forallb allSpace string1] in *.
  - now rewrite Hc.
  - rewrite Hc. exact IH.
Qed.

Lemma getlines_cons (c : ascii) (r : string) :
  exists l ls, getlines (String c r) = l :: ls.
Proof.
  cbn [getlines]. destruct (c =? newline)%char; [now eexists; eexists|].
  destruct (getlines r); now eexists; eexists.
Qed.

End BlankInput.

(** X15: a source whose lines are all blank gives the program with an
    empty body, with no header for the string type and both flags
    false. *)
Theorem blank_source_empty_program (lines : list string) :
  forallb allSpace lines = true ->
  transpileState (tokenizeLines lines) = initState
  /\ transpile (tokenizeLines lines) =
       (("#include <iostream>" ++ nl)
        ++ ("using namespace std;" ++ nl ++ nl)
        ++ ("int main() {" ++ nl)
        ++ ("    return 0;" ++ nl ++ "}" ++ nl))%string.
Proof.
  intros H. unfold transpile, transpileState.
  rewrite (run_blank_lines lines initState H). split; reflexivity.
Qed.

Lemma blank_source_empty_program_witness :
  forallb allSpace ["   "; EmptyString; String "009" " "] = true
  /\ transpileState (tokenizeLines ["   "; EmptyString; String "009" " "]) =
       initState.
Proof.
  split; [reflexivity|].
  exact (proj1 (blank_source_empty_program
                  ["   "; EmptyString; String "009" " "] eq_refl)).
Defined.

(** X16: a file that is not empty and holds white space only is not an
    error: the program ends with status zero, writes no diagnostic, and
    the file written is the program with an empty body. *)
Theorem blank_file_runs (c : ascii) (r : string) :
  allSpace (String c r) = true ->
  exitStatus (main (Some (String c r)) true) = 0%Z
  /\ cerr (main (Some (String c r)) true) = []
  /\ generatedFile (main (Some (String c r)) true) = Some (assemble initState).
Proof.
  intros H. unfold main. cbn [tokenizeFile].
  pose proof (getlines_allSpace _ H) as Hl.
  destruct (getlines_cons c r) as (l & ls & E).
  unfold transpile, transpileState.
  rewrite (run_blank_lines _ initState Hl). rewrite E in *.
  cbn [tokenizeLines].
  destruct (tokenizeLine l ++ NL :: tokenizeLines ls) eqn:Et.
  - apply app_eq_nil in Et as [_ Et]. discriminate Et.
  - repeat split.
Qed.

Lemma blank_file_runs_witness :
  allSpace (String " " (String newline " ")) = true
  /\ exitStatus (main (Some (String " " (String newline " "))) true) = 0%Z.
Proof.
  split; [reflexivity|].
  exact (proj1 (blank_file_runs " " (String newline " ") eq_refl)).
Defined.

(** ** Statements: print calls over several lines, optional marker *)

(** X17: a print call whose parenthesis is never closed swallows the
    rest of the input: the run ends there with exactly one more line, the
    output of the arguments completed by a top-level comma, and nothing
    of the following lines is emitted as a statement of its own. *)
Theorem unclosed_print_swallows_rest (toks : list token) (st : State) :
  neverCloses toks 0 = true ->
  run ("dekhao" :: "(" :: toks) st =
    pushLine (printLine (fst (splitArgs toks))) st
  /\ snd (splitArgs toks) = [].
Proof.
  intros Hopen.
  assert (Hs : snd (splitArgs toks) = []).
  { unfold splitArgs.
    now rewrite (splitArgsLoop_unclosed toks 0 EmptyString [] Hopen). }
  split; [|exact Hs].
  rewrite run_statement by reflexivity.
  unfold statement. cbn [String.eqb Ascii.eqb Bool.eqb andb].
  destruct (splitArgs toks) as [args r]. cbn [fst snd] in *. subst r.
  reflexivity.
Qed.

Lemma unclosed_print_swallows_rest_witness :
  neverCloses ["a"; ","; "b"; NL; "integer"; "x"; "te"; "5"; NL; "dekhao"; "("; "x"; ")"; NL] 0 = true
  /\ run ("dekhao" :: "("
          :: ["a"; ","; "b"; NL; "integer"; "x"; "te"; "5"; NL; "dekhao"; "("; "x"; ")"; NL])
       initState =
       mkState ["std::cout << a << std::endl;"] false false.
Proof.
  split; [reflexivity|].
  exact (proj1 (unclosed_print_swallows_rest
    ["a"; ","; "b"; NL; "integer"; "x"; "te"; "5"; NL; "dekhao"; "("; "x"; ")"; NL]
    initState eq_refl)).
Defined.

(** X18: a print call may be closed on a later line: the transpiler
    emits one output line for the whole call, with the arguments of the
    list up to the matching parenthesis, discards what follows the
    parenthesis on its line, and goes on with the line after. *)
Theorem print_call_over_lines (toks trailing rest : list token) (st : State) :
  depthAfter toks 0 = Some 0 ->
  oneLine trailing = true ->
  run ("dekhao" :: "(" :: toks ++ ")" :: trailing ++ NL :: rest) st =
    run rest (pushLine (printLine (fst (splitArgs (toks ++ [")"])))) st).
Proof.
  intros Hd Ht.
  rewrite run_statement by reflexivity.
  unfold statement. cbn [String.eqb Ascii.eqb Bool.eqb andb].
  unfold splitArgs.
  rewrite (splitArgsLoop_closing toks _ 0 EmptyString [] Hd).
  rewrite (skipToEOL_line trailing rest Ht).
  cbn [fst snd]. apply run_NL.
Qed.

Lemma print_call_over_lines_witness :
  depthAfter ["x"; ","; NL; "y"] 0 = Some 0
  /\ oneLine ["z"] = true
  /\ run ("dekhao" :: "(" :: ["x"; ","; NL; "y"] ++ ")" :: ["z"] ++ NL
          :: ["float"; "f"; "te"; "1"; NL])
       initState =
       mkState ["std::cout << x << y << std::endl;"; "float f = 1;"] false true.
Proof.
  split; [reflexivity|]. split; [reflexivity|].
  exact (print_call_over_lines ["x"; ","; NL; "y"] ["z"]
           ["float"; "f"; "te"; "1"; NL] initState eq_refl eq_refl).
Defined.

(** X19: the binding marker [te] is optional: a line [<type> <id> <expr>]
    whose expression is not empty, does not start with [te], and holds
    no [te] token and no unterminated literal gives the same declaration
    line as with the marker. *)
Theorem declaration_without_marker
  (ty id e1 : token) (expr rest : list token) (st : State) :
  isTypeKeyword ty = true ->
  forallb exprToken (e1 :: expr) = true ->
  run (ty :: id :: e1 :: expr ++ NL :: rest) st =
    run rest
      (mkState
         (body st ++ [declLine ty id (joinTokens (e1 :: expr))])
         (if (ty =? "string")%string then true else usesString st)
         (if (ty =? "float")%string then true else usesFloat st)).
Proof.
  intros Hty Hexpr.
  destruct (isTypeKeyword_not_special ty Hty) as [Hnl Hd].
  rewrite (run_statement _ _ _ Hnl).
  unfold statement. rewrite Hd.
  replace ((3 <? List.length (ty :: id :: e1 :: expr ++ NL :: rest))%nat)
    with true.
  2:{ symmetry. apply Nat.ltb_lt. cbn [List.length].
      rewrite length_app. cbn [List.length]. lia. }
  rewrite Hty. cbn [andb].
  assert (Hte : (e1 =? "te")%string = false).
  { cbn [forallb] in Hexpr. apply andb_true_iff in Hexpr as [H _].
    unfold exprToken in H.
    apply andb_true_iff in H as [H _]. apply andb_true_iff in H as [_ H].
    now apply negb_true_iff in H. }
  rewrite Hte. unfold readExprUntilEOL.
  change (e1 :: expr ++ NL :: rest) with ((e1 :: expr) ++ NL :: rest).
  rewrite (readExprLoop_join (e1 :: expr) rest Hexpr EmptyString).
  cbn [fst snd]. rewrite run_NL. reflexivity.
Qed.

Lemma declaration_without_marker_witness :
  isTypeKeyword "float" = true
  /\ forallb exprToken ["a"; "*"; "2"] = true
  /\ run ("float" :: "r" :: "a" :: ["*"; "2"] ++ NL :: []) initState =
       mkState ["float r = a*2;"] false true.
Proof.
  split; [reflexivity|]. split; [reflexivity|].
  exact (declaration_without_marker "float" "r" "a" ["*"; "2"] [] initState
           eq_refl eq_refl).
Defined.

(** ** Termination of the two loops *)

(** X20: the loop of [tokenizeLine] ends.  The loop body is the step
    [tokenizeStep]: an iteration pushes the token of the step, if any,
    and goes on at the text the step leaves; every step leaves strictly
    less text unread than it found, so every iteration consumes at least
    one character; and with any budget of iterations that covers the
    length of the line the loop gives the tokens of [tokenizeLine], which
    are the token of the first step followed by the tokens of the text
    left. *)
Theorem tokenizeLine_terminates (fuel : nat) (s : string) :
  String.length s <= fuel ->
  tokenizeFrom fuel s = tokenizeLine s
  /\ (forall n : nat,
        tokenizeFrom (S n) s =
          match tokenizeStep s with
          | None => []
          | Some (None, rest) => tokenizeFrom n rest
          | Some (Some t, rest) => t :: tokenizeFrom n rest
          end)
  /\ (forall (tok : option token) (rest : string),
        tokenizeStep s = Some (tok, rest) ->
        String.length rest < String.length s)
  /\ tokenizeLine s =
       match tokenizeStep s with
       | None => []
       | Some (None, rest) => tokenizeLine rest
       | Some (Some t, rest) => t :: tokenizeLine rest
       end.
Proof.
  intros H. split; [|split; [|split]].
  - unfold tokenizeLine. apply tokenizeFrom_fuel; [exact H | lia].
  - intros n. destruct s as [|ch rest]; [reflexivity|].
    cbn [tokenizeFrom tokenizeStep].
    destruct (isspace ch); [reflexivity|].
    destruct (ch =? dquote)%char; [now destruct (scanQuoted rest)|].
    destruct (isSingleCharToken ch); [reflexivity|].
    destruct (isWordChar ch); [now destruct (scanWord rest) | reflexivity].
  - intros tok rest. destruct s as [|ch r]; [discriminate|].
    cbn [tokenizeStep String.length].
    pose proof (scanQuoted_length r) as HQ.
    pose proof (scanWord_length r) as HW.
    destruct (isspace ch); [intros E; injection E as _ <-; lia|].
    destruct (ch =? dquote)%char.
    { destruct (scanQuoted r) as [lit r']. cbn [snd] in HQ.
      intros E; injection E as _ <-. lia. }
    destruct (isSingleCharToken ch); [intros E; injection E as _ <-; lia|].
    destruct (isWordChar ch).
    { destruct (scanWord r) as [w r']. cbn [snd] in HW.
      intros E; injection E as _ <-. lia. }
    intros E; injection E as _ <-. lia.
  - destruct s as [|ch rest]; [reflexivity|].
    rewrite tokenizeLine_step. cbn [tokenizeStep].
    destruct (isspace ch); [reflexivity|].
    destruct (ch =? dquote)%char; [now destruct (scanQuoted rest)|].
    destruct (isSingleCharToken ch); [reflexivity|].
    destruct (isWordChar ch); [now destruct (scanWord rest) | reflexivity].
Qed.

Lemma tokenizeLine_terminates_witness :
  String.length "  dekhao(x)" <= 20
  /\ tokenizeFrom 20 "  dekhao(x)" = ["dekhao"; "("; "x"; ")"]
  /\ tokenizeStep "  dekhao(x)" = Some (None, " dekhao(x)")
  /\ String.length " dekhao(x)" < String.length "  dekhao(x)".
Proof.
  split; [cbn; lia|].
  assert (H : String.length "  dekhao(x)" <= 20) by (cbn; lia).
  split; [exact (proj1 (tokenizeLine_terminates 20 "  dekhao(x)" H))|].
  split; [reflexivity|].
  exact (proj1 (proj2 (proj2 (tokenizeLine_terminates 20 "  dekhao(x)" H)))
           None " dekhao(x)" eq_refl).
Defined.

(** X21: the loop of [transpile] ends: a dispatch at a token that is not
    a line-boundary marker consumes at least that token, so with any
    budget of iterations that covers the number of tokens the loop has
    read them all and ends in the state of [run]. *)
Theorem transpile_terminates
  (fuel : nat) (t : token) (r : list token) (st : State) :
  List.length (t :: r) <= fuel ->
  isNewlineToken t = false ->
  transpileLoop fuel (t :: r) st = run (t :: r) st
  /\ List.length (fst (statement (t :: r) st)) < List.length (t :: r).
Proof.
  intros H Hnl. split.
  - unfold run. apply transpileLoop_fuel; [exact H | lia].
  - pose proof (statement_length t r st Hnl). cbn [List.length]. lia.
Qed.

Lemma transpile_terminates_witness :
  List.length ("dekhao" :: ["("; "x"; NL; "y"]) <= 9
  /\ isNewlineToken "dekhao" = false
  /\ transpileLoop 9 ("dekhao" :: ["("; "x"; NL; "y"]) initState =
       run ("dekhao" :: ["("; "x"; NL; "y"]) initState.
Proof.
  split; [cbn; lia|]. split; [reflexivity|].
  refine (proj1 (transpile_terminates 9 "dekhao" ["("; "x"; NL; "y"] initState
                   _ eq_refl)).
  cbn; lia.
Defined.

(** ** From the source text to the generated line *)

Section LiteralArgument.

Lemma trimRight_snoc (s : string) (c : ascii) :
  isspace c = false ->
  trimRight (s ++ String c EmptyString) = (s ++ String c EmptyString)%string.
Proof.
  intros Hc. induction s as [|a s IH].
  - cbn. now rewrite Hc.
  - change (String a s ++ String c EmptyString)%string
      with (String a (s ++ String c EmptyString)).
    cbn [trimRight]. rewrite IH.
    destruct (s ++ String c EmptyString)%string eqn:E; [|reflexivity].
    destruct s; discriminate E.
Qed.

Lemma trim_literal (lit : string) :
  trim (String dquote (lit ++ string1 dquote)) =
    String dquote (lit ++ string1 dquote).
Proof.
  unfold trim. cbn [trimLeft].
  change (isspace dquote) with false. cbv iota.
  change (String dquote (lit ++ string1 dquote))
    with (String dquote lit ++ String dquote EmptyString)%string.
  now apply trimRight_snoc.
Qed.

Lemma splitArgs_literal (lit : string) (tail : list token) :
  splitArgs (String dquote (lit ++ string1 dquote) :: ")" :: tail) =
    ([String dquote (lit ++ string1 dquote)], tail).
Proof.
  unfold splitArgs. cbn [splitArgsLoop].
  change (String dquote (lit ++ string1 dquote) =? "(")%string with false.
  change (String dquote (lit ++ string1 dquote) =? ")")%string with false.
  change (String dquote (lit ++ string1 dquote) =? ",")%string with false.
  change (isNewlineToken (String dquote (lit ++ string1 dquote))) with false.
  cbn [andb negb].
  change (argNeedSpace (String dquote (lit ++ string1 dquote)) ")") with false.
  cbv iota. cbn [String.eqb Ascii.eqb Bool.eqb andb String.append].
  rewrite append_nil_r. unfold flushArg. rewrite trim_literal. reflexivity.
Qed.

Lemma tokenizeLine_print_literal (lit : string) :
  hasQuote lit = false ->
  tokenizeLine ("dekhao(" ++ String dquote (lit ++ String dquote ")")) =
    ["dekhao"; "("; String dquote (lit ++ string1 dquote); ")"].
Proof.
  intros Hlit.
  rewrite (tokenizeLine_before_quote 7 "dekhao("
             (lit ++ String dquote ")") (le_n _) eq_refl).
  rewrite (tokenizeLine_step dquote).
  change (isspace dquote) with false.
  change (dquote =? dquote)%char with true. cbv iota.
  rewrite (scanQuoted_closing lit ")" Hlit). reflexivity.
Qed.

End LiteralArgument.

(** X22: a string literal is printed as it is written: for every text
    without a quote, whatever else it holds (spaces, commas, parentheses,
    keywords), the source line [dekhao("text")] gives the one generated
    line [std::cout << "text" << std::endl;], and no flag is set. *)
Theorem print_literal_verbatim (lit : string) :
  hasQuote lit = false ->
  transpileState
    (tokenizeLines [("dekhao(" ++ String dquote (lit ++ String dquote ")"))%string]) =
    mkState
      [("std::cout << " ++ String dquote (lit ++ string1 dquote)
        ++ " << std::endl;")%string]
      false false.
Proof.
  intros Hlit. cbn [tokenizeLines].
  rewrite (tokenizeLine_print_literal lit Hlit). cbn [app].
  unfold transpileState. rewrite run_statement by reflexivity.
  unfold statement. cbn [String.eqb Ascii.eqb Bool.eqb andb].
  rewrite splitArgs_literal. cbn [skipToEOL]. rewrite isNewlineToken_NL.
  cbn [fst snd]. rewrite run_NL, run_nil.
  unfold pushLine, printLine. cbn [body usesString usesFloat initState app].
  cbn [map writeAll]. rewrite append_nil_r. reflexivity.
Qed.

Lemma print_literal_verbatim_witness :
  hasQuote "a, b) te integer ( x" = false
  /\ transpileState
       (tokenizeLines
          [("dekhao(" ++ String dquote ("a, b) te integer ( x" ++ String dquote ")"))%string]) =
       mkState
         [("std::cout << " ++ String dquote ("a, b) te integer ( x" ++ string1 dquote)
           ++ " << std::endl;")%string]
         false false.
Proof.
  split; [reflexivity|].
  exact (print_literal_verbatim "a, b) te integer ( x" eq_refl).
Defined.

(** ** Lines that start neither statement *)

(** X23: a line whose first token is the print keyword without an
    opening parenthesis after it, or whose first token is neither the
    print keyword nor a type keyword, is discarded up to its line
    boundary: the dispatch leaves the body and both feature flags as
    they are and the cursor at the marker, and the run ends in the state
    it would end in without that line. *)
Theorem plain_line_skipped (t : token) (more rest : list token) (st : State) :
  oneLine (t :: more) = true ->
  isPrintCall (t :: more ++ NL :: rest) = false ->
  isTypeKeyword t = false ->
  statement (t :: more ++ NL :: rest) st = (NL :: rest, st)
  /\ run (t :: more ++ NL :: rest) st = run rest st.
Proof.
  intros Hline Hprint Hty.
  apply undispatched_line_skipped; [exact Hline | exact Hprint |].
  unfold isDeclaration. rewrite Hty. now rewrite !andb_false_r.
Qed.

Lemma plain_line_skipped_witness :
  (oneLine ["dekhao"; "x"; ")"] = true
   /\ isPrintCall ("dekhao" :: ["x"; ")"] ++ NL :: ["string"; "s"; "te"; "y"; NL]) = false
   /\ isTypeKeyword "dekhao" = false
   /\ run ("dekhao" :: ["x"; ")"] ++ NL :: ["string"; "s"; "te"; "y"; NL]) initState =
        mkState ["std::string s = y;"] true false)
  /\ (oneLine ["total"; "te"; "5"] = true
      /\ isTypeKeyword "total" = false
      /\ run ("total" :: ["te"; "5"] ++ NL :: []) (mkState ["int a = 1;"] false true) =
           mkState ["int a = 1;"] false true).
Proof.
  split.
  - split; [reflexivity|]. split; [reflexivity|]. split; [reflexivity|].
    exact (proj2 (plain_line_skipped "dekhao" ["x"; ")"]
                    ["string"; "s"; "te"; "y"; NL] initState
                    eq_refl eq_refl eq_refl)).
  - split; [reflexivity|]. split; [reflexivity|].
    exact (proj2 (plain_line_skipped "total" ["te"; "5"] []
                    (mkState ["int a = 1;"] false true)
                    eq_refl eq_refl eq_refl)).
Defined.
